(** * to-do-loo: the Todo store behind the Django views

    A shallow embedding of [todos/forms.py] and [todos/views.py].  The
    database table is a finite map from primary keys to rows; every view is
    a computation in a small state-and-error monad over that table, so that
    "the request failed" and "the table is as it was" can both be read off
    the result of running a view. *)

From Stdlib Require Import ZArith Ascii String List Lia.
From stdpp Require Import gmap strings list sorting fin_maps.

Local Open Scope string_scope.
Local Open Scope Z_scope.

(** ** The entity *)

Definition timestamp := Z.

(** Modelled from the spec: [todos/models.py] (the [Todo] model) is not among
    the sources; its columns are the attributes of the data-model table:
    title (required, at most 200 characters), description (text, empty by
    default), completed (false by default), due_date (nullable), created_at
    (set once at creation) and updated_at (refreshed on every save).  The
    primary key is kept apart from the columns: it is the key of the table. *)
Record TodoRow : Type := mkRow {
  title : string;
  description : string;
  completed : bool;
  due_date : option timestamp;
  created_at : timestamp;
  updated_at : timestamp
}.

(** A model instance: a row together with the primary key it is stored under. *)
Record Todo : Type := mkTodo {
  id : Z;
  row :> TodoRow
}.

(** Modelled from the spec: the length bound of [title], declared in the
    absent [todos/models.py] ("bounded length (<=200 chars)").  A string is
    a sequence of characters, one element each. *)
Definition title_max_length : nat := 200.

(** ** The table *)

(** [next_id] is the auto-increment counter: ids are handed out in order and
    a deleted id is not handed out again. *)
Record Store : Type := mkStore {
  rows : gmap Z TodoRow;
  next_id : Z
}.

Definition empty_store : Store := {| rows := ∅; next_id := 1 |}.

(** ** Failures *)

Inductive field : Type := f_title | f_description | f_due_date | f_completed.

Inductive reason : Type :=
  | required
  | max_length
  | null_characters_not_allowed
  | invalid.

(** [NotFound] is the views' [Http404]; [ValidationError] is an unbound form
    re-rendered with its per-field errors. *)
Inductive Error : Type :=
  | NotFound
  | ValidationError (errors : list (field * reason)).

Inductive result (A : Type) : Type :=
  | Ok (a : A)
  | Fail (e : Error).
Arguments Ok {A} a.
Arguments Fail {A} e.

(** ** Requests as computations over the table *)

Definition M (A : Type) : Type := Store -> result A * Store.

Definition ret {A} (a : A) : M A := fun st => (Ok a, st).

Definition raise {A} (e : Error) : M A := fun st => (Fail e, st).

Definition bind {A B} (m : M A) (k : A -> M B) : M B :=
  fun st =>
    match m st with
    | (Ok a, st') => k a st'
    | (Fail e, st') => (Fail e, st')
    end.

#[global] Instance M_ret : MRet M := fun A => @ret A.
#[global] Instance M_bind : MBind M := fun A B k m => bind m k.

Definition run {A} (m : M A) (st : Store) : result A := fst (m st).
Definition exec {A} (m : M A) (st : Store) : Store := snd (m st).

(** ** The ORM calls the views make *)

(** [get_object_or_404(Todo, pk=pk)], also what the generic views'
    [get_object] does. *)
Definition get_object_or_404 (pk : Z) : M Todo :=
  fun st =>
    match rows st !! pk with
    | Some r => (Ok (mkTodo pk r), st)
    | None => (Fail NotFound, st)
    end.

(** Modelled from the spec: what saving does to the timestamps is declared in
    the absent [todos/models.py]; "updated_at: updated on every mutation",
    "created_at: set once at creation, immutable". *)
Definition touch (now : timestamp) (r : TodoRow) : TodoRow :=
  {| title := title r; description := description r;
     completed := completed r; due_date := due_date r;
     created_at := created_at r; updated_at := now |}.

(** [todo.save()] on an instance read from the table: the row under the
    instance's key is overwritten by the instance's fields.  The instance
    itself, with its refreshed timestamp, is handed back. *)
Definition save (now : timestamp) (todo : Todo) : M Todo :=
  fun st =>
    let r := touch now (row todo) in
    (Ok (mkTodo (id todo) r),
     {| rows := <[id todo := r]> (rows st); next_id := next_id st |}).

(** [todo.delete()]. *)
Definition delete_object (todo : Todo) : M unit :=
  fun st =>
    (Ok tt, {| rows := delete (id todo) (rows st); next_id := next_id st |}).

(** ** [TodoForm] *)

(** What the optional [forms.DateTimeField] finds in the submitted text: left
    blank, a date-time it accepts, or text it refuses. *)
Inductive due_input : Type :=
  | DueBlank
  | DueAt (t : timestamp)
  | DueMalformed.

(** The submitted values of the four fields of [TodoForm.Meta.fields].  The
    text fields hold the text as it was typed; an unchecked checkbox is
    [false], a description left empty is the empty string. *)
Record PostData : Type := mkPost {
  post_title : string;
  post_description : string;
  post_due_date : due_input;
  post_completed : bool
}.

Record cleaned_data : Type := mkCleaned {
  c_title : string;
  c_description : string;
  c_due_date : option timestamp;
  c_completed : bool
}.

(** *** Text fields

    Title and description are [forms.CharField]s, the form fields a
    [ModelForm] derives for the model's text columns.  Such a field strips
    the submitted text of surrounding whitespace ([str.strip]) before it
    looks at it, and always carries the validator that refuses a NUL
    character. *)

(** The characters [str.strip] takes for whitespace, among the first 256. *)
Definition is_space (c : ascii) : bool :=
  let n := nat_of_ascii c in
  (((9 <=? n) && (n <=? 13)) || ((28 <=? n) && (n <=? 32))
   || (n =? 133) || (n =? 160))%nat.

Fixpoint lstrip (s : string) : string :=
  match s with
  | EmptyString => EmptyString
  | String c s' => if is_space c then lstrip s' else s
  end.

Fixpoint rstrip (s : string) : string :=
  match s with
  | EmptyString => EmptyString
  | String c s' =>
      match rstrip s' with
      | EmptyString => if is_space c then EmptyString else String c EmptyString
      | String c' r => String c (String c' r)
      end
  end.

Definition strip (s : string) : string := rstrip (lstrip s).

Fixpoint has_nul (s : string) : bool :=
  match s with
  | EmptyString => false
  | String c s' => (nat_of_ascii c =? 0)%nat || has_nul s'
  end.

(** The title is required and bounded: an empty value is refused before any
    validator runs; otherwise the length bound and the NUL check both run
    and both report. *)
Definition clean_title (s : string) : list (field * reason) :=
  let v := strip s in
  if String.eqb v "" then [(f_title, required)]
  else
    (if (title_max_length <? String.length v)%nat
     then [(f_title, max_length)] else [])
    ++ (if has_nul v then [(f_title, null_characters_not_allowed)] else []).

(** The description is optional and unbounded. *)
Definition clean_description (s : string) : list (field * reason) :=
  if has_nul (strip s) then [(f_description, null_characters_not_allowed)]
  else [].

Definition clean_due_date (d : due_input) : list (field * reason) :=
  match d with
  | DueMalformed => [(f_due_date, invalid)]
  | _ => []
  end.

Definition to_due_date (d : due_input) : option timestamp :=
  match d with
  | DueAt t => Some t
  | _ => None
  end.

(** Every field is cleaned and the errors are gathered, in the order of
    [Meta.fields]; the checkbox of [completed] cannot fail. *)
Definition form_errors (p : PostData) : list (field * reason) :=
  clean_title (post_title p) ++ clean_description (post_description p)
  ++ clean_due_date (post_due_date p).

(** The cleaned text is the stripped text. *)
Definition TodoForm (p : PostData) : M cleaned_data :=
  match form_errors p with
  | [] => ret {| c_title := strip (post_title p);
                 c_description := strip (post_description p);
                 c_due_date := to_due_date (post_due_date p);
                 c_completed := post_completed p |}
  | errs => raise (ValidationError errs)
  end.

(** [form.save()] for a form without an instance: an INSERT under a fresh
    key.  Modelled from the spec for the timestamps: "sets created_at =
    updated_at = now". *)
Definition form_save_new (now : timestamp) (d : cleaned_data) : M Todo :=
  fun st =>
    let r := {| title := c_title d; description := c_description d;
                completed := c_completed d; due_date := c_due_date d;
                created_at := now; updated_at := now |} in
    (Ok (mkTodo (next_id st) r),
     {| rows := <[next_id st := r]> (rows st); next_id := next_id st + 1 |}).

(** [form.save()] for a form bound to an instance: the four form fields are
    written over the instance's, which is then saved. *)
Definition apply_form (d : cleaned_data) (todo : Todo) : Todo :=
  mkTodo (id todo)
    {| title := c_title d; description := c_description d;
       completed := c_completed d; due_date := c_due_date d;
       created_at := created_at todo; updated_at := updated_at todo |}.

(** ** The views *)

(** [TodoDetailView]: get. *)
Definition TodoDetailView (pk : Z) : M Todo := get_object_or_404 pk.

(** [TodoCreateView], POST: create. *)
Definition TodoCreateView (now : timestamp) (p : PostData) : M Todo :=
  d ← TodoForm p;
  form_save_new now d.

(** [TodoUpdateView], POST: the object is fetched before the form is
    validated. *)
Definition TodoUpdateView (now : timestamp) (pk : Z) (p : PostData) : M Todo :=
  todo ← get_object_or_404 pk;
  d ← TodoForm p;
  save now (apply_form d todo).

(** [TodoDeleteView], POST: delete. *)
Definition TodoDeleteView (pk : Z) : M unit :=
  todo ← get_object_or_404 pk;
  delete_object todo.

Definition set_completed (b : bool) (todo : Todo) : Todo :=
  mkTodo (id todo)
    {| title := title todo; description := description todo;
       completed := b; due_date := due_date todo;
       created_at := created_at todo; updated_at := updated_at todo |}.

(** [toggle_todo]: fetch, negate [completed], save; the answer is a redirect
    to the list, which carries no data. *)
Definition toggle_todo (now : timestamp) (pk : Z) : M unit :=
  todo ← get_object_or_404 pk;
  _ ← save now (set_completed (negb (completed (row todo))) todo);
  mret tt.

(** ** [TodoListView] *)

Definition paginate_by : nat := 10.

(** Modelled from the spec: the default ordering is declared in the absent
    [todos/models.py]; "most-recently-created first". *)
Definition newer_first (a b : Todo) : Prop := created_at b <= created_at a.

#[global] Instance newer_first_dec a b : Decision (newer_first a b).
Proof. unfold newer_first. apply _. Defined.

Definition queryset (st : Store) : list Todo :=
  merge_sort newer_first
    ((fun kr : Z * TodoRow => mkTodo (fst kr) (snd kr)) <$> map_to_list (rows st)).

(** The [page] request parameter: a number or the word [last]. *)
Inductive page_kwarg : Type :=
  | PageNumber (n : Z)
  | PageLast.

(** [Paginator.num_pages] with no orphans and an empty first page allowed. *)
Definition num_pages (count : nat) : Z :=
  let hits := Nat.max 1 count in
  Z.of_nat ((hits + paginate_by - 1) / paginate_by)%nat.

(** [Paginator.page]: the slice [object_list[bottom:top]]. *)
Definition paginator_page (l : list Todo) (number : Z) : M (list Todo) :=
  if number <? 1 then raise NotFound
  else if num_pages (length l) <? number then raise NotFound
  else
    let bottom := (Z.to_nat (number - 1) * paginate_by)%nat in
    ret (take paginate_by (drop bottom l)).

Definition TodoListView (page : page_kwarg) : M (list Todo) :=
  fun st =>
    let l := queryset st in
    let number := match page with
                  | PageNumber n => n
                  | PageLast => num_pages (length l)
                  end in
    paginator_page l number st.


(** A due date as a caller has it, written into the form. *)
Definition submit_due (due : option timestamp) : due_input :=
  match due with
  | Some t => DueAt t
  | None => DueBlank
  end.

(** ** Timestamps against the clock *)

(** Every row was created no later than it was last saved, and last saved no
    later than the clock reading [t]. *)
Definition timely (t : timestamp) (st : Store) : Prop :=
  map_Forall (fun _ r => created_at r <= updated_at r /\ updated_at r <= t)
    (rows st).

(** ** Sample data *)

Definition groceries : PostData :=
  mkPost "Buy groceries" "Milk, eggs, bread" DueBlank false.

Definition project : PostData :=
  mkPost "Complete project" "Finish the Django project" (DueAt 90) true.

Definition store_one : Store := exec (TodoCreateView 5 groceries) empty_store.

Definition store_two : Store := exec (TodoCreateView 7 project) store_one.

(** ** Requests and responses *)

(** The two request methods the tests use. *)
Inductive method : Type := GET | POST.

(** A form as a template shows it: unbound, filled from an instance when
    there is one, or bound to the submitted data with its errors. *)
Inductive form_state : Type :=
  | unbound (initial : option Todo)
  | bound (data : PostData) (errors : list (field * reason)).

(** What a template is rendered with: [context_object_name = 'todos'] of the
    list, [context_object_name = 'todo'] of the detail page (the name the
    delete page gets from the model), or the form of the create and edit
    pages. *)
Inductive context : Type :=
  | ctx_todos (todos : list Todo)
  | ctx_todo (todo : Todo)
  | ctx_form (form : form_state).

Inductive HttpResponse : Type :=
  | render (template_name : string) (ctx : context)
  | redirect (to : string)
  | Http404
  | HttpResponseNotAllowed.

Definition status_code (r : HttpResponse) : Z :=
  match r with
  | render _ _ => 200
  | redirect _ => 302
  | Http404 => 404
  | HttpResponseNotAllowed => 405
  end.

(** [success_url = reverse_lazy('todo-list')], also where [toggle_todo]
    redirects to. *)
Definition success_url : string := "todo-list".

Definition Handler : Type := Store -> HttpResponse * Store.

(** [TodoListView]: only GET is handled. *)
Definition TodoListView_dispatch (m : method) (page : page_kwarg) : Handler :=
  fun st =>
    match m with
    | GET =>
        match TodoListView page st with
        | (Ok l, st') => (render "todos/todo_list.html" (ctx_todos l), st')
        | (Fail _, st') => (Http404, st')
        end
    | POST => (HttpResponseNotAllowed, st)
    end.

(** [TodoDetailView]: only GET is handled. *)
Definition TodoDetailView_dispatch (m : method) (pk : Z) : Handler :=
  fun st =>
    match m with
    | GET =>
        match TodoDetailView pk st with
        | (Ok todo, st') => (render "todos/todo_detail.html" (ctx_todo todo), st')
        | (Fail _, st') => (Http404, st')
        end
    | POST => (HttpResponseNotAllowed, st)
    end.

(** [TodoCreateView]: GET shows an empty form; POST saves a valid form and
    redirects, and shows an invalid one again with its errors. *)
Definition TodoCreateView_dispatch (now : timestamp) (m : method) (p : PostData)
  : Handler :=
  fun st =>
    match m with
    | GET => (render "todos/todo_form.html" (ctx_form (unbound None)), st)
    | POST =>
        match TodoCreateView now p st with
        | (Ok _, st') => (redirect success_url, st')
        | (Fail NotFound, st') => (Http404, st')
        | (Fail (ValidationError errs), st') =>
            (render "todos/todo_form.html" (ctx_form (bound p errs)), st')
        end
    end.

(** [TodoUpdateView]: both methods fetch the object first. *)
Definition TodoUpdateView_dispatch (now : timestamp) (m : method) (pk : Z)
    (p : PostData) : Handler :=
  fun st =>
    match m with
    | GET =>
        match get_object_or_404 pk st with
        | (Ok todo, st') =>
            (render "todos/todo_form.html" (ctx_form (unbound (Some todo))), st')
        | (Fail _, st') => (Http404, st')
        end
    | POST =>
        match TodoUpdateView now pk p st with
        | (Ok _, st') => (redirect success_url, st')
        | (Fail NotFound, st') => (Http404, st')
        | (Fail (ValidationError errs), st') =>
            (render "todos/todo_form.html" (ctx_form (bound p errs)), st')
        end
    end.

(** [TodoDeleteView]: GET asks for confirmation, POST deletes. *)
Definition TodoDeleteView_dispatch (m : method) (pk : Z) : Handler :=
  fun st =>
    match m with
    | GET =>
        match get_object_or_404 pk st with
        | (Ok todo, st') =>
            (render "todos/todo_confirm_delete.html" (ctx_todo todo), st')
        | (Fail _, st') => (Http404, st')
        end
    | POST =>
        match TodoDeleteView pk st with
        | (Ok _, st') => (redirect success_url, st')
        | (Fail _, st') => (Http404, st')
        end
    end.

(** [toggle_todo] is a plain function: it never looks at the method. *)
Definition toggle_todo_dispatch (now : timestamp) (m : method) (pk : Z)
  : Handler :=
  fun st =>
    match toggle_todo now pk st with
    | (Ok _, st') => (redirect "todo-list", st')
    | (Fail _, st') => (Http404, st')
    end.

(** The pages of the site, by the route names the tests reverse. *)
Inductive target : Type :=
  | todo_list (page : page_kwarg)
  | todo_detail (pk : Z)
  | todo_create (data : PostData)
  | todo_edit (pk : Z) (data : PostData)
  | todo_delete (pk : Z)
  | todo_toggle (pk : Z).

(** A request: when it arrives, its method, and the page it is for. *)
Record request : Type := mkRequest {
  req_now : timestamp;
  req_method : method;
  req_target : target
}.

Definition handle (r : request) : Handler :=
  match req_target r with
  | todo_list page => TodoListView_dispatch (req_method r) page
  | todo_detail pk => TodoDetailView_dispatch (req_method r) pk
  | todo_create p => TodoCreateView_dispatch (req_now r) (req_method r) p
  | todo_edit pk p => TodoUpdateView_dispatch (req_now r) (req_method r) pk p
  | todo_delete pk => TodoDeleteView_dispatch (req_method r) pk
  | todo_toggle pk => toggle_todo_dispatch (req_now r) (req_method r) pk
  end.

(** The table after a run of requests, served one after the other. *)
Fixpoint serve (rs : list request) (st : Store) : Store :=
  match rs with
  | [] => st
  | r :: rs' => serve rs' (snd (handle r st))
  end.

(** ** What the table keeps *)

(** Every key in use lies below the counter. *)
Definition ids_below (st : Store) : Prop :=
  map_Forall (fun k _ => k < next_id st) (rows st).

(** Every stored title passes the form's check of a title. *)
Definition titles_valid (st : Store) : Prop :=
  map_Forall (fun _ r => clean_title (title r) = []) (rows st).

(** The form that submits a stored row back, with [completed] as given. *)
Definition resubmit (r : TodoRow) (b : bool) : PostData :=
  mkPost (title r) (description r) (submit_due (due_date r)) b.

(** All the pages of the list, first to last. *)
Definition all_pages (st : Store) : list (result (list Todo)) :=
  (fun i : nat => run (TodoListView (PageNumber (Z.of_nat (S i)))) st)
    <$> seq 0 (Z.to_nat (num_pages (length (queryset st)))).

Definition page_items (r : result (list Todo)) : list Todo :=
  match r with
  | Ok l => l
  | Fail _ => []
  end.

(** ** Stripped text, said without [strip] *)

Fixpoint all_space (s : string) : bool :=
  match s with
  | EmptyString => true
  | String c s' => is_space c && all_space s'
  end.

Definition starts_with_space (s : string) : bool :=
  match s with
  | EmptyString => false
  | String c _ => is_space c
  end.

Fixpoint ends_with_space (s : string) : bool :=
  match s with
  | EmptyString => false
  | String c EmptyString => is_space c
  | String _ s' => ends_with_space s'
  end.

(** [v] is [s] without the whitespace around it: [s] is [v] between two runs
    of whitespace, and [v] neither starts nor ends with whitespace. *)
Definition is_strip_of (s v : string) : Prop :=
  exists l r, s = (l ++ v ++ r)%string /\
    all_space l = true /\ all_space r = true /\
    starts_with_space v = false /\ ends_with_space v = false.

(** A title as the form stores it: nothing left to strip, and accepted. *)
Definition title_stored (t : string) : Prop :=
  strip t = t /\ clean_title t = [].

(** A row whose text the form would store as it is. *)
Definition row_clean (r : TodoRow) : Prop :=
  strip (title r) = title r /\ strip (description r) = description r /\
  clean_title (title r) = [] /\ clean_description (description r) = [].

(** ** Two toggles at once *)

(** [toggle_todo] makes two calls on the table, the read of
    [get_object_or_404] and the write of [save], and nothing in
    [views.py] joins them: no [transaction.atomic], no [select_for_update],
    no [F()] update.  A request that has read and not yet written holds the
    instance it read. *)
Inductive toggle_state : Type :=
  | toggle_start (pk : Z)
  | toggle_loaded (todo : Todo)
  | toggle_done (answer : result unit).

(** One call of a toggle request against the table. *)
Definition toggle_step (now : timestamp) (t : toggle_state)
  : Store -> toggle_state * Store :=
  fun st =>
    match t with
    | toggle_start pk =>
        match get_object_or_404 pk st with
        | (Ok todo, st') => (toggle_loaded todo, st')
        | (Fail e, st') => (toggle_done (Fail e), st')
        end
    | toggle_loaded todo =>
        match save now (set_completed (negb (completed (row todo))) todo) st with
        | (Ok _, st') => (toggle_done (Ok tt), st')
        | (Fail e, st') => (toggle_done (Fail e), st')
        end
    | toggle_done answer => (toggle_done answer, st)
    end.

(** Two toggle requests in flight over one table. *)
Record race : Type := mkRace {
  req1 : toggle_state;
  req2 : toggle_state;
  table : Store
}.

Inductive turn : Type := first | second.

Definition race_step (now1 now2 : timestamp) (w : turn) (c : race) : race :=
  match w with
  | first =>
      let '(t, st) := toggle_step now1 (req1 c) (table c) in
      mkRace t (req2 c) st
  | second =>
      let '(t, st) := toggle_step now2 (req2 c) (table c) in
      mkRace (req1 c) t st
  end.

(** The requests take their calls in the order of the schedule. *)
Fixpoint interleave (now1 now2 : timestamp) (sched : list turn) (c : race)
  : race :=
  match sched with
  | [] => c
  | w :: sched' => interleave now1 now2 sched' (race_step now1 now2 w c)
  end.

Definition same_turn (a b : turn) : bool :=
  match a, b with
  | first, first | second, second => true
  | _, _ => false
  end.

(** How many calls the schedule gives to a request. *)
Fixpoint turns_of (w : turn) (sched : list turn) : nat :=
  match sched with
  | [] => 0%nat
  | x :: sched' => ((if same_turn x w then 1 else 0) + turns_of w sched')%nat
  end.

(** One request makes both its calls before the other makes any. *)
Definition serial (sched : list turn) : bool :=
  match sched with
  | [first; first; second; second] => true
  | [second; second; first; first] => true
  | _ => false
  end.

(** * Properties *)

(** ** How the views run *)

(** The monad's operations compute by unfolding. *)
Ltac unfold_views :=
  unfold run, exec, TodoDetailView, TodoCreateView, TodoUpdateView,
    TodoDeleteView, toggle_todo, TodoForm, form_save_new, delete_object, save,
    get_object_or_404, mbind, mret, M_bind, M_ret, bind, ret, raise in *.

Lemma get_object_or_404_found pk st r :
  rows st !! pk = Some r -> get_object_or_404 pk st = (Ok (mkTodo pk r), st).
Proof. intros H. unfold get_object_or_404. now rewrite H. Qed.

Lemma get_object_or_404_missing pk st :
  rows st !! pk = None -> get_object_or_404 pk st = (Fail NotFound, st).
Proof. intros H. unfold get_object_or_404. now rewrite H. Qed.

(** ** Stripping *)

Lemma app_String c a b : (String c a ++ b)%string = String c (a ++ b)%string.
Proof. reflexivity. Qed.

Lemma app_empty b : ("" ++ b)%string = b.
Proof. reflexivity. Qed.

Lemma lstrip_split s : exists l, s = (l ++ lstrip s)%string /\ all_space l = true.
Proof.
  induction s as [| c s IH]; simpl.
  - now exists "".
  - destruct (is_space c) eqn:Hc.
    + destruct IH as (l & E & Hl). exists (String c l). simpl.
      rewrite Hc, Hl. split; [rewrite app_String; now f_equal | reflexivity].
    + now exists "".
Qed.

Lemma lstrip_start s : starts_with_space (lstrip s) = false.
Proof.
  induction s as [| c s IH]; simpl; [reflexivity |].
  destruct (is_space c) eqn:Hc; [exact IH | simpl; exact Hc].
Qed.

Lemma lstrip_id s : starts_with_space s = false -> lstrip s = s.
Proof. destruct s as [| c s]; simpl; [reflexivity |]. now intros ->. Qed.

Lemma rstrip_cons c s :
  rstrip (String c s) =
    if (String.eqb (rstrip s) "" && is_space c)%bool then "" else String c (rstrip s).
Proof. simpl. destruct (rstrip s); simpl; [now destruct (is_space c) | reflexivity]. Qed.

Lemma rstrip_split s : exists r, s = (rstrip s ++ r)%string /\ all_space r = true.
Proof.
  induction s as [| c s IH].
  - now exists "".
  - destruct IH as (r & E & Hr). rewrite rstrip_cons.
    destruct (rstrip s) as [| c' v] eqn:Hv; simpl.
    + destruct (is_space c) eqn:Hc; simpl.
      * exists (String c r). simpl. rewrite Hc, Hr. rewrite app_empty in *.
        split; [now f_equal | reflexivity].
      * exists r. rewrite app_String, app_empty in *.
        split; [now f_equal | exact Hr].
    + exists r. split; [| exact Hr]. rewrite app_String. now f_equal.
Qed.

Lemma rstrip_end s : ends_with_space (rstrip s) = false.
Proof.
  induction s as [| c s IH]; [reflexivity |].
  rewrite rstrip_cons. destruct (rstrip s) as [| c' v] eqn:Hv; simpl.
  - destruct (is_space c) eqn:Hc; simpl; [reflexivity | exact Hc].
  - exact IH.
Qed.

Lemma rstrip_id s : ends_with_space s = false -> rstrip s = s.
Proof.
  induction s as [| c s IH]; [reflexivity |].
  intros H. rewrite rstrip_cons. destruct s as [| c' s'].
  - simpl in *. now rewrite H.
  - rewrite IH by exact H. reflexivity.
Qed.

Lemma rstrip_start s : starts_with_space s = false -> starts_with_space (rstrip s) = false.
Proof.
  destruct s as [| c s]; [reflexivity |]. intros H. simpl in H.
  rewrite rstrip_cons, H, andb_false_r. exact H.
Qed.

Lemma strip_start s : starts_with_space (strip s) = false.
Proof. apply rstrip_start, lstrip_start. Qed.

Lemma strip_end s : ends_with_space (strip s) = false.
Proof. apply rstrip_end. Qed.

Lemma strip_idem s : strip (strip s) = strip s.
Proof.
  unfold strip at 1. rewrite lstrip_id by apply strip_start.
  apply rstrip_id, strip_end.
Qed.

Lemma strip_id s :
  starts_with_space s = false -> ends_with_space s = false -> strip s = s.
Proof. intros H1 H2. unfold strip. rewrite lstrip_id by exact H1. now apply rstrip_id. Qed.

Lemma strip_is_strip_of s : is_strip_of s (strip s).
Proof.
  destruct (lstrip_split s) as (l & El & Hl).
  destruct (rstrip_split (lstrip s)) as (r & Er & Hr).
  exists l, r. repeat split; auto using strip_start, strip_end.
  unfold strip. now rewrite <- Er.
Qed.

Lemma all_space_lstrip l x : all_space l = true -> lstrip (l ++ x) = lstrip x.
Proof.
  induction l as [| c l IH]; [reflexivity |].
  intros H. simpl in H. apply andb_true_iff in H as [Hc Hl].
  rewrite app_String. simpl. rewrite Hc. auto.
Qed.

Lemma all_space_rstrip_nil r : all_space r = true -> rstrip r = "".
Proof.
  induction r as [| c r IH]; [reflexivity |]. simpl.
  intros [Hc Hr]%andb_true_iff. now rewrite IH, Hc.
Qed.

Lemma all_space_rstrip x r : all_space r = true -> rstrip (x ++ r) = rstrip x.
Proof.
  intros Hr. induction x as [| c x IH].
  - rewrite app_empty. now apply all_space_rstrip_nil.
  - rewrite app_String, !rstrip_cons. now rewrite IH.
Qed.

(** Stripping is the one way to take the whitespace off both ends. *)
Lemma is_strip_of_unique s v : is_strip_of s v <-> v = strip s.
Proof.
  split; [| intros ->; apply strip_is_strip_of].
  intros (l & r & -> & Hl & Hr & Hs & He). unfold strip.
  rewrite (all_space_lstrip l _ Hl).
  destruct v as [| c v].
  - rewrite app_empty.
    assert (E : lstrip r = "").
    { clear -Hr. induction r as [| c r IH]; [reflexivity |]. simpl in *.
      apply andb_true_iff in Hr as [Hc Hr]. rewrite Hc. auto. }
    now rewrite E.
  - simpl in Hs. rewrite app_String. simpl lstrip. rewrite Hs.
    rewrite <- app_String, (all_space_rstrip _ r Hr).
    symmetry. now apply rstrip_id.
Qed.

Lemma is_space_not_nul c : is_space c = true -> (nat_of_ascii c =? 0)%nat = false.
Proof.
  unfold is_space. destruct (nat_of_ascii c) as [| n]; [discriminate | reflexivity].
Qed.

Lemma has_nul_app a b : has_nul (a ++ b) = has_nul a || has_nul b.
Proof.
  induction a as [| c a IH]; [reflexivity |].
  rewrite app_String. simpl. now rewrite IH, orb_assoc.
Qed.

Lemma all_space_no_nul s : all_space s = true -> has_nul s = false.
Proof.
  induction s as [| c s IH]; simpl; [reflexivity |].
  intros [Hc Hs]%andb_true_iff. now rewrite is_space_not_nul, IH.
Qed.

Lemma has_nul_strip s : has_nul (strip s) = has_nul s.
Proof.
  destruct (strip_is_strip_of s) as (l & r & E & Hl & Hr & _).
  rewrite E at 2. rewrite !has_nul_app, (all_space_no_nul l Hl), (all_space_no_nul r Hr).
  simpl. now rewrite orb_false_r.
Qed.

(** ** What the form accepts *)

Lemma clean_title_ok s :
  clean_title s = [] <->
  strip s <> "" /\ (String.length (strip s) <= title_max_length)%nat /\
  has_nul s = false.
Proof.
  unfold clean_title. rewrite has_nul_strip.
  destruct (String.eqb_spec (strip s) "") as [E | Hne].
  - split; [discriminate | intros [H _]; now elim H].
  - destruct (Nat.ltb_spec title_max_length (String.length (strip s)));
      destruct (has_nul s); simpl;
      (split; [try discriminate; intros _; repeat split; auto; lia
              | intros (_ & ? & ?); try reflexivity; try discriminate; lia]).
Qed.

Lemma clean_description_ok s : clean_description s = [] <-> has_nul s = false.
Proof.
  unfold clean_description. rewrite has_nul_strip.
  destruct (has_nul s); split; congruence.
Qed.

Lemma clean_due_date_ok d : clean_due_date d = [] <-> d <> DueMalformed.
Proof. destruct d; simpl; split; congruence. Qed.

Lemma form_errors_ok p :
  form_errors p = [] <->
  strip (post_title p) <> "" /\
  (String.length (strip (post_title p)) <= title_max_length)%nat /\
  has_nul (post_title p) = false /\
  has_nul (post_description p) = false /\
  post_due_date p <> DueMalformed.
Proof.
  unfold form_errors. split.
  - intros H. apply app_eq_nil in H as [Ht H]. apply app_eq_nil in H as [Hd Hdue].
    apply clean_title_ok in Ht as (? & ? & ?).
    apply clean_description_ok in Hd. apply clean_due_date_ok in Hdue. auto.
  - intros (Hne & Hlen & Hnt & Hnd & Hdue).
    assert (Ht : clean_title (post_title p) = []) by (apply clean_title_ok; auto).
    apply clean_description_ok in Hnd. apply clean_due_date_ok in Hdue.
    now rewrite Ht, Hnd, Hdue.
Qed.

(** The ways a form can be wrong. *)
Lemma form_errors_bad p :
  form_errors p <> [] <->
  strip (post_title p) = "" \/
  (title_max_length < String.length (strip (post_title p)))%nat \/
  has_nul (post_title p) = true \/
  has_nul (post_description p) = true \/
  post_due_date p = DueMalformed.
Proof.
  rewrite form_errors_ok. split.
  - intros H.
    destruct (String.eqb_spec (strip (post_title p)) "") as [E | Hne]; [now left |].
    destruct (Nat.ltb_spec title_max_length
                (String.length (strip (post_title p)))) as [Hlt | Hle];
      [right; now left |].
    destruct (has_nul (post_title p)) eqn:Hnt; [right; right; now left |].
    destruct (has_nul (post_description p)) eqn:Hnd;
      [right; right; right; now left |].
    right; right; right; right.
    destruct (post_due_date p) eqn:Hd; try reflexivity;
      elim H; repeat split; auto; discriminate.
  - intros [E | [E | [E | [E | E]]]] (Hne & Hlen & Hnt & Hnd & Hdue);
      try congruence; lia.
Qed.

(** A valid form yields a fresh row under [next_id]. *)
Lemma TodoCreateView_valid now p st :
  form_errors p = [] ->
  TodoCreateView now p st =
    (Ok (mkTodo (next_id st)
           (mkRow (strip (post_title p)) (strip (post_description p))
                  (post_completed p) (to_due_date (post_due_date p)) now now)),
     {| rows := <[next_id st :=
                    mkRow (strip (post_title p)) (strip (post_description p))
                          (post_completed p) (to_due_date (post_due_date p))
                          now now]> (rows st);
        next_id := next_id st + 1 |}).
Proof. intros H. unfold_views. now rewrite H. Qed.

(** An invalid form leaves the table alone. *)
Lemma TodoCreateView_invalid now p st :
  form_errors p <> [] ->
  TodoCreateView now p st = (Fail (ValidationError (form_errors p)), st).
Proof.
  intros H. unfold_views. destruct (form_errors p); [now elim H | reflexivity].
Qed.

Lemma toggle_todo_found now pk st r :
  rows st !! pk = Some r ->
  toggle_todo now pk st =
    (Ok tt,
     {| rows := <[pk := mkRow (title r) (description r) (negb (completed r))
                          (due_date r) (created_at r) now]> (rows st);
        next_id := next_id st |}).
Proof. intros H. unfold_views. now rewrite H. Qed.

Lemma TodoUpdateView_found now pk p st r :
  rows st !! pk = Some r -> form_errors p = [] ->
  TodoUpdateView now pk p st =
    (Ok (mkTodo pk
           (mkRow (strip (post_title p)) (strip (post_description p))
                  (post_completed p) (to_due_date (post_due_date p))
                  (created_at r) now)),
     {| rows := <[pk := mkRow (strip (post_title p))
                          (strip (post_description p))
                          (post_completed p) (to_due_date (post_due_date p))
                          (created_at r) now]> (rows st);
        next_id := next_id st |}).
Proof. intros H Hv. unfold_views. now rewrite H, Hv. Qed.

(** ** Create *)

(** C1 (as the code has it): a successful create stores the [completed] flag
    that was submitted with the form; the new todo is pending when the flag
    was left unset. *)
Theorem create_completed_as_submitted now p st e :
  run (TodoCreateView now p) st = Ok e ->
  completed e = post_completed p /\
  (post_completed p = false -> completed e = false).
Proof.
  intros H. unfold run in H.
  destruct (form_errors p) eqn:Hv.
  - rewrite TodoCreateView_valid in H by assumption.
    simpl in H. injection H as <-. simpl. auto.
  - rewrite TodoCreateView_invalid in H by congruence. discriminate.
Qed.

Lemma create_completed_as_submitted_witness :
  completed (mkTodo 1 (mkRow "Buy groceries" "Milk, eggs, bread" false None 5 5))
    = false.
Proof.
  apply (create_completed_as_submitted 5
           (mkPost "Buy groceries" "Milk, eggs, bread" DueBlank false)
           empty_store).
  - reflexivity.
  - reflexivity.
Defined.

(** C1, the claim as written fails: a create submitted with the [completed]
    box checked succeeds and the new todo is completed from the start. *)
Lemma create_can_start_completed :
  run (TodoCreateView 5 (mkPost "Complete project" "" DueBlank true)) empty_store
    = Ok (mkTodo 1 (mkRow "Complete project" "" true None 5 5)) /\
  ~ (forall now p st e,
       run (TodoCreateView now p) st = Ok e -> completed e = false).
Proof.
  split; [reflexivity |].
  intros H.
  specialize (H 5 (mkPost "Complete project" "" DueBlank true) empty_store _
                eq_refl).
  discriminate H.
Qed.

(** C2 (as the code has it): create fails with a validation error exactly
    when the title, stripped of surrounding whitespace, is empty or longer
    than 200 characters, or the title or the description holds a NUL
    character, or the submitted due date is refused by its field; it fails
    in no other way, and a failed create leaves the table as it was.  The
    stripped title is the one text that is the title without the whitespace
    around it. *)
Theorem create_validation now p st :
  ((exists errs, run (TodoCreateView now p) st = Fail (ValidationError errs)) <->
   (strip (post_title p) = "" \/
    (title_max_length < String.length (strip (post_title p)))%nat \/
    has_nul (post_title p) = true \/
    has_nul (post_description p) = true \/
    post_due_date p = DueMalformed)) /\
  (forall v, is_strip_of (post_title p) v <-> v = strip (post_title p)) /\
  (forall err, run (TodoCreateView now p) st = Fail err ->
     err = ValidationError (form_errors p) /\
     exec (TodoCreateView now p) st = st).
Proof.
  rewrite <- form_errors_bad. unfold run, exec.
  split; [| split; [intros v; apply is_strip_of_unique |]].
  - destruct (form_errors p) eqn:Hv.
    + rewrite TodoCreateView_valid by assumption. simpl.
      split; [intros [errs H]; discriminate | intros H; now elim H].
    + rewrite TodoCreateView_invalid by congruence. simpl.
      split; [intros _; discriminate | intros _; eexists; reflexivity].
  - destruct (form_errors p) eqn:Hv.
    + rewrite TodoCreateView_valid by assumption. simpl.
      intros err H. discriminate.
    + rewrite TodoCreateView_invalid by congruence. simpl.
      intros err H. injection H as <-. now rewrite Hv.
Qed.

Lemma create_validation_witness :
  exists errs,
    run (TodoCreateView 5 (mkPost "   " "No title" DueBlank false)) empty_store
      = Fail (ValidationError errs).
Proof.
  apply (proj1 (create_validation 5 (mkPost "   " "No title" DueBlank false)
                  empty_store)).
  left. reflexivity.
Defined.

(** C2, the claim as written fails: a create whose title is neither empty
    nor too long is refused with a validation error, on the due date. *)
Lemma create_rejects_malformed_due_date :
  let p := mkPost "Pay the rent" "" DueMalformed false in
  TodoCreateView 5 p empty_store
    = (Fail (ValidationError [(f_due_date, invalid)]), empty_store) /\
  post_title p <> "" /\
  (String.length (post_title p) <= 200)%nat /\
  ~ (forall now q st,
       (exists errs, run (TodoCreateView now q) st = Fail (ValidationError errs))
       <-> (post_title q = "" \/ (200 < String.length (post_title q))%nat)).
Proof.
  simpl. split; [reflexivity |]. split; [discriminate |]. split; [lia |].
  intros H.
  destruct (H 5 (mkPost "Pay the rent" "" DueMalformed false) empty_store)
    as [Hfail _].
  destruct Hfail as [E | L].
  - eexists. reflexivity.
  - discriminate E.
  - simpl in L. lia.
Qed.

(** ** Toggle *)

(** C3: on an existing id a toggle succeeds and stores the negation of
    [completed]; a second toggle brings [completed] back to where it was. *)
Theorem toggle_flips_and_twice_restores now1 now2 pk st r :
  rows st !! pk = Some r ->
  let st1 := exec (toggle_todo now1 pk) st in
  let st2 := exec (toggle_todo now2 pk) st1 in
  run (toggle_todo now1 pk) st = Ok tt /\
  completed <$> rows st1 !! pk = Some (negb (completed r)) /\
  run (toggle_todo now2 pk) st1 = Ok tt /\
  completed <$> rows st2 !! pk = Some (completed r).
Proof.
  intros H st1 st2. subst st2 st1. unfold run, exec.
  rewrite (toggle_todo_found now1 pk st r H). simpl.
  erewrite (toggle_todo_found now2 pk); [| simpl; apply lookup_insert_eq].
  simpl. rewrite !lookup_insert_eq. simpl.
  rewrite negb_involutive. auto.
Qed.

(** ** Missing ids *)

(** C4: on an id that is not in the table, get, update, delete and toggle
    all answer [NotFound] and hand the table back as it was. *)
Theorem missing_id_not_found now pk p st :
  rows st !! pk = None ->
  TodoDetailView pk st = (Fail NotFound, st) /\
  TodoUpdateView now pk p st = (Fail NotFound, st) /\
  TodoDeleteView pk st = (Fail NotFound, st) /\
  toggle_todo now pk st = (Fail NotFound, st).
Proof.
  intros H. unfold_views. rewrite H. auto.
Qed.

(** C10: a toggle on an existing id changes [completed] and [updated_at] of
    that one row; its key, title, description, due date and creation time
    stay, every other row stays, and so does the id counter. *)
Theorem toggle_frame now pk st r :
  rows st !! pk = Some r ->
  let st' := exec (toggle_todo now pk) st in
  (exists r', rows st' !! pk = Some r' /\
     run (TodoDetailView pk) st' = Ok (mkTodo pk r') /\
     title r' = title r /\ description r' = description r /\
     due_date r' = due_date r /\ created_at r' = created_at r) /\
  (forall k, k <> pk -> rows st' !! k = rows st !! k) /\
  next_id st' = next_id st.
Proof.
  intros H st'. subst st'. unfold exec, run.
  rewrite (toggle_todo_found now pk st r H). simpl.
  split; [| split].
  - eexists. split; [apply lookup_insert_eq |].
    unfold TodoDetailView.
    erewrite get_object_or_404_found by (simpl; apply lookup_insert_eq).
    simpl. auto.
  - intros k Hk. now apply lookup_insert_ne.
  - reflexivity.
Qed.

Lemma toggle_flips_and_twice_restores_witness :
  completed <$> rows (exec (toggle_todo 9 1) store_two) !! 1 = Some true /\
  completed <$> rows (exec (toggle_todo 11 1) (exec (toggle_todo 9 1) store_two)) !! 1
    = Some false.
Proof.
  pose proof (toggle_flips_and_twice_restores 9 11 1 store_two
                (mkRow "Buy groceries" "Milk, eggs, bread" false None 5 5)
                eq_refl) as (_ & H1 & _ & H2).
  split; [exact H1 | exact H2].
Defined.

Lemma missing_id_not_found_witness :
  toggle_todo 9 999 store_two = (Fail NotFound, store_two) /\
  TodoDeleteView 999 store_two = (Fail NotFound, store_two).
Proof.
  pose proof (missing_id_not_found 9 999 groceries store_two eq_refl)
    as (_ & _ & Hd & Ht).
  split; [exact Ht | exact Hd].
Defined.

Lemma toggle_frame_witness :
  rows (exec (toggle_todo 9 1) store_two) !! 2 = rows store_two !! 2 /\
  next_id (exec (toggle_todo 9 1) store_two) = 3.
Proof.
  pose proof (toggle_frame 9 1 store_two
                (mkRow "Buy groceries" "Milk, eggs, bread" false None 5 5)
                eq_refl) as (_ & Hothers & Hnext).
  split; [apply Hothers; lia | exact Hnext].
Defined.

(** ** Update *)

Lemma TodoUpdateView_invalid now pk p st r :
  rows st !! pk = Some r -> form_errors p <> [] ->
  TodoUpdateView now pk p st = (Fail (ValidationError (form_errors p)), st).
Proof.
  intros H Hv. unfold_views. rewrite H.
  destruct (form_errors p); [now elim Hv | reflexivity].
Qed.

(** C5 (as the code has it): on an existing id, for a title that is
    non-empty once stripped, at most 200 characters long and free of NUL, a
    description free of NUL, any due date (or none) and any completed flag,
    update succeeds.  The saved entity carries the submitted title and
    description without the whitespace around them (as submitted when there
    is none), the submitted due date and completed flag, nothing taken over
    from the stored row; its [updated_at] is the clock reading, its key and
    [created_at] are the stored ones; get then returns that same entity.
    When the clock reads no earlier than the entity's creation,
    [created_at <= updated_at]. *)
Theorem update_replaces_fields now pk t d due c st r :
  rows st !! pk = Some r ->
  strip t <> "" ->
  (String.length (strip t) <= title_max_length)%nat ->
  has_nul t = false ->
  has_nul d = false ->
  let p := mkPost t d (submit_due due) c in
  exists e,
    run (TodoUpdateView now pk p) st = Ok e /\
    run (TodoDetailView pk) (exec (TodoUpdateView now pk p) st) = Ok e /\
    id e = pk /\
    is_strip_of t (title e) /\
    is_strip_of d (description e) /\
    (starts_with_space t = false -> ends_with_space t = false -> title e = t) /\
    (starts_with_space d = false -> ends_with_space d = false ->
     description e = d) /\
    due_date e = due /\
    completed e = c /\
    updated_at e = now /\
    created_at e = created_at r /\
    (created_at r <= now -> created_at e <= updated_at e).
Proof.
  intros H Hne Hlen Hnt Hnd p.
  assert (Hv : form_errors p = []).
  { apply form_errors_ok. subst p. simpl.
    repeat split; try assumption. now destruct due. }
  unfold run, exec.
  rewrite (TodoUpdateView_found now pk p st r H Hv). simpl.
  eexists. split; [reflexivity |].
  unfold TodoDetailView.
  erewrite get_object_or_404_found by (simpl; apply lookup_insert_eq).
  simpl. split; [reflexivity |]. split; [reflexivity |].
  split; [apply strip_is_strip_of |]. split; [apply strip_is_strip_of |].
  split; [apply strip_id |]. split; [apply strip_id |].
  split; [now destruct due |]. auto.
Qed.

Lemma update_replaces_fields_witness :
  run (TodoDetailView 2)
      (exec (TodoUpdateView 9 2
               (mkPost "Buy groceries" "Milk, eggs, bread" (DueAt 30) false))
            store_two)
    = Ok (mkTodo 2 (mkRow "Buy groceries" "Milk, eggs, bread" false (Some 30)
                          7 9)).
Proof.
  destruct (update_replaces_fields 9 2 "Buy groceries" "Milk, eggs, bread"
              (Some 30) false store_two
              (mkRow "Complete project" "Finish the Django project" true
                     (Some 90) 7 7))
    as (e & Hrun & Hget & _).
  - reflexivity.
  - discriminate.
  - unfold title_max_length. simpl. lia.
  - reflexivity.
  - reflexivity.
  - simpl in Hget, Hrun. rewrite Hget, <- Hrun. reflexivity.
Defined.

(** C5, the claim as written fails: an update that the form accepts does not
    always hand back the supplied values (a title submitted with spaces
    around it is stored without them), and [updated_at] falls before
    [created_at] when the clock has been set back. *)
Lemma update_stores_stripped_text :
  let p := mkPost " Buy milk " "" DueBlank false in
  form_errors p = [] /\
  (title <$> rows (exec (TodoUpdateView 9 1 p) store_two) !! 1) = Some "Buy milk" /\
  (updated_at <$> rows (exec (TodoUpdateView 3 1 p) store_two) !! 1) = Some 3 /\
  (created_at <$> rows (exec (TodoUpdateView 3 1 p) store_two) !! 1) = Some 5 /\
  ~ (forall now pk q st r e,
       rows st !! pk = Some r -> form_errors q = [] ->
       run (TodoUpdateView now pk q) st = Ok e ->
       title e = post_title q /\ created_at e <= updated_at e).
Proof.
  simpl. repeat split; try reflexivity.
  intros H.
  destruct (H 9 1 (mkPost " Buy milk " "" DueBlank false) store_two _ _
              eq_refl eq_refl eq_refl) as [E _].
  discriminate E.
Qed.

(** ** Create, then get *)

(** C6 (as the code has it): for a title that is non-empty once stripped, at
    most 200 characters long and free of NUL, a description free of NUL and
    any due date (or none), submitted with the completed box left
    unchecked, create succeeds, and get on the new id returns the entity
    with that title and description without the whitespace around them (as
    submitted when there is none), that due date, not completed, and with
    [created_at] equal to [updated_at]. *)
Theorem create_then_get now t d due st :
  strip t <> "" ->
  (String.length (strip t) <= title_max_length)%nat ->
  has_nul t = false ->
  has_nul d = false ->
  let p := mkPost t d (submit_due due) false in
  exists e,
    run (TodoCreateView now p) st = Ok e /\
    run (TodoDetailView (id e)) (exec (TodoCreateView now p) st) = Ok e /\
    id e = next_id st /\
    is_strip_of t (title e) /\
    is_strip_of d (description e) /\
    (starts_with_space t = false -> ends_with_space t = false -> title e = t) /\
    (starts_with_space d = false -> ends_with_space d = false ->
     description e = d) /\
    due_date e = due /\
    completed e = false /\
    created_at e = updated_at e.
Proof.
  intros Hne Hlen Hnt Hnd p.
  assert (Hv : form_errors p = []).
  { apply form_errors_ok. subst p. simpl.
    repeat split; try assumption. now destruct due. }
  unfold run, exec. rewrite (TodoCreateView_valid now p st Hv). simpl.
  eexists. split; [reflexivity |].
  unfold TodoDetailView.
  erewrite get_object_or_404_found by (simpl; apply lookup_insert_eq).
  simpl. split; [reflexivity |]. split; [reflexivity |].
  split; [apply strip_is_strip_of |]. split; [apply strip_is_strip_of |].
  split; [apply strip_id |]. split; [apply strip_id |].
  split; [now destruct due |]. auto.
Qed.

Lemma create_then_get_witness :
  exists e,
    run (TodoCreateView 5 groceries) empty_store = Ok e /\
    run (TodoDetailView (id e)) store_one = Ok e /\
    title e = "Buy groceries" /\ completed e = false /\
    created_at e = updated_at e.
Proof.
  destruct (create_then_get 5 "Buy groceries" "Milk, eggs, bread" None
              empty_store)
    as (e & Hrun & Hget & _ & _ & _ & Ht & _ & _ & Hc & Hts).
  - discriminate.
  - unfold title_max_length. simpl. lia.
  - reflexivity.
  - reflexivity.
  - exists e. repeat split; try assumption. now apply Ht.
Defined.

(** C6, the claim as written fails: a title of ten characters, none of them
    NUL, is accepted, and get returns it without the spaces it was submitted
    with; a title of three spaces is as short and is refused. *)
Lemma create_stores_stripped_text :
  run (TodoCreateView 5 (mkPost " Buy milk " "" DueBlank false)) empty_store
    = Ok (mkTodo 1 (mkRow "Buy milk" "" false None 5 5)) /\
  run (TodoDetailView 1)
      (exec (TodoCreateView 5 (mkPost " Buy milk " "" DueBlank false))
            empty_store)
    = Ok (mkTodo 1 (mkRow "Buy milk" "" false None 5 5)) /\
  run (TodoCreateView 5 (mkPost "   " "" DueBlank false)) empty_store
    = Fail (ValidationError [(f_title, required)]) /\
  ~ (forall now t d due st,
       t <> "" -> (String.length t <= 200)%nat ->
       exists e,
         run (TodoCreateView now (mkPost t d (submit_due due) false)) st = Ok e /\
         run (TodoDetailView (id e))
             (exec (TodoCreateView now (mkPost t d (submit_due due) false)) st)
           = Ok e /\
         title e = t).
Proof.
  repeat split; try reflexivity.
  intros H.
  destruct (H 5 " Buy milk " "" None empty_store)
    as (e & Hrun & _ & Ht).
  - discriminate.
  - simpl. lia.
  - vm_compute in Hrun. injection Hrun as <-. discriminate Ht.
Qed.

(** ** List *)

#[local] Instance newer_first_trans : Transitive newer_first.
Proof. intros a b c. unfold newer_first. lia. Qed.

#[local] Instance newer_first_total : Total newer_first.
Proof. intros a b. unfold newer_first. lia. Qed.

Lemma queryset_sorted st : StronglySorted newer_first (queryset st).
Proof. unfold queryset. apply StronglySorted_merge_sort; apply _. Qed.

(** The queryset holds the table's rows, each under its key, and no other. *)
Lemma queryset_elem_of st e :
  e ∈ queryset st <-> rows st !! id e = Some (row e).
Proof.
  unfold queryset. rewrite merge_sort_Permutation, list_elem_of_fmap.
  split.
  - intros ([k r] & -> & Hin). simpl. now apply elem_of_map_to_list.
  - intros H. exists (id e, row e). split; [now destruct e |].
    now apply elem_of_map_to_list.
Qed.

Lemma queryset_length st : length (queryset st) = size (rows st).
Proof.
  unfold queryset. rewrite merge_sort_Permutation, length_fmap.
  apply length_map_to_list.
Qed.

Lemma StronglySorted_sublist {A} (R : relation A) (l k : list A) :
  l `sublist_of` k -> StronglySorted R k -> StronglySorted R l.
Proof.
  induction 1 as [| x l k Hsub IH | x l k Hsub IH]; intros Hk.
  - constructor.
  - apply StronglySorted_inv in Hk as [Hk Hx].
    constructor; [auto |].
    rewrite Forall_forall in Hx |- *.
    intros y Hy. apply Hx. eapply elem_of_sublist; eassumption.
  - apply StronglySorted_inv in Hk as [Hk _]. auto.
Qed.

Lemma num_pages_pos count : 1 <= num_pages count.
Proof.
  unfold num_pages, paginate_by.
  assert (1 <= (Nat.max 1 count + 10 - 1) / 10)%nat; [| lia].
  apply Nat.div_le_lower_bound; lia.
Qed.

Lemma paginator_page_slice l number st :
  1 <= number -> number <= num_pages (length l) ->
  paginator_page l number st =
    (Ok (take paginate_by (drop (Z.to_nat (number - 1) * paginate_by) l)), st).
Proof.
  intros Hlo Hhi. unfold paginator_page.
  destruct (Z.ltb_spec number 1); [lia |].
  destruct (Z.ltb_spec (num_pages (length l)) number); [lia |].
  reflexivity.
Qed.

Lemma paginator_page_cases l number st :
  paginator_page l number st = (Fail NotFound, st) \/
  paginator_page l number st =
    (Ok (take paginate_by (drop (Z.to_nat (number - 1) * paginate_by) l)), st).
Proof.
  unfold paginator_page.
  destruct (number <? 1); [now left |].
  destruct (num_pages (length l) <? number); [now left | now right].
Qed.

(** C7: the list view hands the table back untouched; the first page and
    the page called [last] always exist; a page that is returned is a slice
    of the rows ordered most-recently-created first, of at most
    [paginate_by] = 10 entities, themselves in that order, each of them a
    row of the table. *)
Theorem list_ordered_and_bounded page st :
  exec (TodoListView page) st = st /\
  (page = PageNumber 1 \/ page = PageLast ->
   exists l, run (TodoListView page) st = Ok l) /\
  (forall l, run (TodoListView page) st = Ok l ->
     (length l <= paginate_by)%nat /\
     paginate_by = 10%nat /\
     StronglySorted newer_first l /\
     (exists bottom, l = take paginate_by (drop bottom (queryset st))) /\
     (forall e, e ∈ l -> rows st !! id e = Some (row e))).
Proof.
  unfold run, exec, TodoListView.
  set (q := queryset st).
  set (number := match page with PageNumber n => n | PageLast => num_pages (length q) end).
  split; [| split].
  - destruct (paginator_page_cases q number st) as [-> | ->]; reflexivity.
  - intros Hpage.
    rewrite paginator_page_slice; [simpl; eauto | |].
    + destruct Hpage as [-> | ->]; subst number; [lia | apply num_pages_pos].
    + destruct Hpage as [-> | ->]; subst number; [apply num_pages_pos | lia].
  - intros l Hl.
    destruct (paginator_page_cases q number st) as [E | E];
      rewrite E in Hl; simpl in Hl; [discriminate |].
    injection Hl as <-.
    set (bottom := (Z.to_nat (number - 1) * paginate_by)%nat).
    assert (Hsub : take paginate_by (drop bottom q) `sublist_of` q).
    { etransitivity; [apply sublist_take | apply sublist_drop]. }
    split; [rewrite length_take; lia |].
    split; [reflexivity |].
    split; [eapply StronglySorted_sublist; [exact Hsub | apply queryset_sorted] |].
    split; [now exists bottom |].
    intros e He. apply queryset_elem_of.
    eapply elem_of_sublist; [exact He | exact Hsub].
Qed.

Lemma list_ordered_and_bounded_witness :
  run (TodoListView (PageNumber 1)) store_two
    = Ok [mkTodo 2 (mkRow "Complete project" "Finish the Django project" true
                          (Some 90) 7 7);
          mkTodo 1 (mkRow "Buy groceries" "Milk, eggs, bread" false None 5 5)] /\
  (2 <= paginate_by)%nat.
Proof.
  split; [reflexivity |].
  exact (proj1 (proj2 (proj2 (list_ordered_and_bounded (PageNumber 1) store_two))
                  _ eq_refl)).
Defined.

(** ** Timestamps *)

Lemma timely_empty t : timely t empty_store.
Proof. unfold timely. simpl. apply map_Forall_empty. Qed.

(** A later clock reading keeps the table timely. *)
Lemma timely_later t now st : timely t st -> t <= now -> timely now st.
Proof.
  unfold timely. intros H Hle. eapply map_Forall_impl; [exact H |].
  simpl. intros _ r [? ?]. split; lia.
Qed.

Lemma timely_insert now st k r next :
  timely now st -> created_at r <= updated_at r -> updated_at r <= now ->
  timely now {| rows := <[k := r]> (rows st); next_id := next |}.
Proof.
  unfold timely. simpl. intros H ? ?. apply map_Forall_insert_2; auto.
Qed.

Lemma timely_lookup t st k r :
  timely t st -> rows st !! k = Some r ->
  created_at r <= updated_at r /\ updated_at r <= t.
Proof. intros H Hk. exact (map_Forall_lookup_1 _ _ _ _ H Hk). Qed.

Lemma TodoCreateView_timely t now p st :
  timely t st -> t <= now -> timely now (exec (TodoCreateView now p) st).
Proof.
  intros H Hle. apply (timely_later _ now) in H; [| assumption].
  unfold exec. destruct (form_errors p) eqn:Hv.
  - rewrite TodoCreateView_valid by assumption. simpl.
    apply timely_insert; simpl; auto; lia.
  - rewrite TodoCreateView_invalid by congruence. exact H.
Qed.

Lemma TodoUpdateView_timely t now pk p st :
  timely t st -> t <= now -> timely now (exec (TodoUpdateView now pk p) st).
Proof.
  intros H Hle. unfold exec.
  destruct (rows st !! pk) as [r |] eqn:Hk.
  - destruct (timely_lookup _ _ _ _ H Hk) as [Hcu Hut].
    apply (timely_later _ now) in H; [| assumption].
    destruct (form_errors p) eqn:Hv.
    + rewrite (TodoUpdateView_found now pk p st r Hk Hv). simpl.
      apply timely_insert; simpl; auto; lia.
    + rewrite (TodoUpdateView_invalid now pk p st r Hk) by congruence. exact H.
  - unfold TodoUpdateView, mbind, M_bind, bind.
    rewrite get_object_or_404_missing by assumption. simpl.
    eapply timely_later; eassumption.
Qed.

Lemma toggle_todo_timely t now pk st :
  timely t st -> t <= now -> timely now (exec (toggle_todo now pk) st).
Proof.
  intros H Hle. unfold exec.
  destruct (rows st !! pk) as [r |] eqn:Hk.
  - destruct (timely_lookup _ _ _ _ H Hk) as [Hcu Hut].
    apply (timely_later _ now) in H; [| assumption].
    rewrite (toggle_todo_found now pk st r Hk). simpl.
    apply timely_insert; simpl; auto; lia.
  - unfold toggle_todo, mbind, M_bind, bind.
    rewrite get_object_or_404_missing by assumption. simpl.
    eapply timely_later; eassumption.
Qed.

Lemma TodoDeleteView_timely t now pk st :
  timely t st -> t <= now -> timely now (exec (TodoDeleteView pk) st).
Proof.
  intros H Hle. apply (timely_later _ now) in H; [| assumption].
  unfold exec, TodoDeleteView, mbind, M_bind, bind, get_object_or_404.
  destruct (rows st !! pk) as [r |]; simpl; [| exact H].
  unfold timely in *. simpl. now apply map_Forall_delete.
Qed.

(** C8: if every row has [created_at <= updated_at <= t] and the clock reads
    [now >= t] (it does not run backwards), then after create, update,
    toggle and delete at [now] every row again has
    [created_at <= updated_at <= now]; and when the clock has moved on
    ([t < now]), a toggle leaves its row with a strictly larger
    [updated_at], namely [now]. *)
Theorem timestamps_ordered t now pk p st :
  timely t st ->
  t <= now ->
  timely now (exec (TodoCreateView now p) st) /\
  timely now (exec (TodoUpdateView now pk p) st) /\
  timely now (exec (toggle_todo now pk) st) /\
  timely now (exec (TodoDeleteView pk) st) /\
  (t < now ->
   forall r, rows st !! pk = Some r ->
     exists r', rows (exec (toggle_todo now pk) st) !! pk = Some r' /\
                updated_at r' = now /\
                updated_at r < updated_at r' /\
                created_at r' <= updated_at r').
Proof.
  intros H Hle.
  split; [now apply (TodoCreateView_timely t) |].
  split; [now apply (TodoUpdateView_timely t) |].
  split; [now apply (toggle_todo_timely t) |].
  split; [now apply (TodoDeleteView_timely t) |].
  intros Hlt r Hk.
  destruct (timely_lookup _ _ _ _ H Hk) as [Hcu Hut].
  unfold exec. rewrite (toggle_todo_found now pk st r Hk). simpl.
  eexists. split; [apply lookup_insert_eq |]. simpl.
  repeat split; lia.
Qed.

Lemma store_two_timely : timely 7 store_two.
Proof.
  unfold store_two, store_one.
  apply (TodoCreateView_timely 5); [| lia].
  apply (TodoCreateView_timely 5); [| lia].
  apply timely_empty.
Qed.

Lemma timestamps_ordered_witness :
  timely 9 (exec (toggle_todo 9 1) store_two) /\
  exists r', rows (exec (toggle_todo 9 1) store_two) !! 1 = Some r' /\
             5 < updated_at r'.
Proof.
  destruct (timestamps_ordered 7 9 1 groceries store_two store_two_timely)
    as (_ & _ & Htoggle & _ & Hstrict).
  - lia.
  - split; [exact Htoggle |].
    destruct (Hstrict ltac:(lia)
                (mkRow "Buy groceries" "Milk, eggs, bread" false None 5 5)
                eq_refl)
      as (r' & Hr' & _ & Hlt & _).
    exists r'. split; [exact Hr' | exact Hlt].
Defined.

(** * Further properties of the views *)

(** ** Delete *)

Lemma TodoDeleteView_found pk st r :
  rows st !! pk = Some r ->
  TodoDeleteView pk st =
    (Ok tt, {| rows := delete pk (rows st); next_id := next_id st |}).
Proof. intros H. unfold_views. now rewrite H. Qed.

(** X1: deleting an existing id succeeds and removes that one row: get,
    update, toggle and a second delete on the id then answer [NotFound];
    every other row and the id counter stay, and the table is one row
    smaller. *)
Theorem delete_removes_one now pk p st r :
  rows st !! pk = Some r ->
  let st' := exec (TodoDeleteView pk) st in
  run (TodoDeleteView pk) st = Ok tt /\
  run (TodoDetailView pk) st' = Fail NotFound /\
  run (TodoUpdateView now pk p) st' = Fail NotFound /\
  run (toggle_todo now pk) st' = Fail NotFound /\
  run (TodoDeleteView pk) st' = Fail NotFound /\
  (forall k, k <> pk -> rows st' !! k = rows st !! k) /\
  next_id st' = next_id st /\
  S (size (rows st')) = size (rows st).
Proof.
  intros H st'. subst st'. unfold run, exec.
  rewrite (TodoDeleteView_found pk st r H). simpl.
  set (st' := {| rows := delete pk (rows st); next_id := next_id st |}).
  assert (Hgone : rows st' !! pk = None) by (simpl; apply lookup_delete_eq).
  split; [reflexivity |].
  split; [unfold TodoDetailView; now rewrite get_object_or_404_missing |].
  split; [unfold TodoUpdateView, mbind, M_bind, bind;
          now rewrite get_object_or_404_missing |].
  split; [unfold toggle_todo, mbind, M_bind, bind;
          now rewrite get_object_or_404_missing |].
  split; [unfold TodoDeleteView, mbind, M_bind, bind;
          now rewrite get_object_or_404_missing |].
  split; [intros k Hk; now apply lookup_delete_ne |].
  split; [reflexivity |].
  simpl.
  assert (size (rows st) <> 0%nat).
  { intros E. apply map_size_empty_iff in E. rewrite E in H.
    now rewrite lookup_empty in H. }
  rewrite map_size_delete, H. lia.
Qed.

Lemma delete_removes_one_witness :
  run (TodoDetailView 1) (exec (TodoDeleteView 1) store_two) = Fail NotFound /\
  rows (exec (TodoDeleteView 1) store_two) !! 2 = rows store_two !! 2 /\
  next_id (exec (TodoDeleteView 1) store_two) = 3.
Proof.
  pose proof (delete_removes_one 9 1 groceries store_two
                (mkRow "Buy groceries" "Milk, eggs, bread" false None 5 5)
                eq_refl) as (_ & Hget & _ & _ & _ & Hothers & Hnext & _).
  split; [exact Hget |]. split; [apply Hothers; lia | exact Hnext].
Defined.

(** ** Update, continued *)

(** X2: on an existing id, update fails exactly when the form is invalid:
    the title, stripped of surrounding whitespace, is empty or longer than
    200 characters, the title or the description holds a NUL character, or
    the due date is refused by its field.  The failure is a validation error
    carrying the form's errors, and the table is left as it was. *)
Theorem update_validation now pk p st r :
  rows st !! pk = Some r ->
  ((exists err, run (TodoUpdateView now pk p) st = Fail err) <->
   (strip (post_title p) = "" \/
    (title_max_length < String.length (strip (post_title p)))%nat \/
    has_nul (post_title p) = true \/
    has_nul (post_description p) = true \/
    post_due_date p = DueMalformed)) /\
  (forall v, is_strip_of (post_title p) v <-> v = strip (post_title p)) /\
  (forall err, run (TodoUpdateView now pk p) st = Fail err ->
     err = ValidationError (form_errors p) /\
     exec (TodoUpdateView now pk p) st = st).
Proof.
  intros H. rewrite <- form_errors_bad. unfold run, exec.
  split; [| split; [intros v; apply is_strip_of_unique |]].
  - destruct (form_errors p) eqn:Hv.
    + rewrite (TodoUpdateView_found now pk p st r H Hv). simpl.
      split; [intros [err E]; discriminate | intros E; now elim E].
    + rewrite (TodoUpdateView_invalid now pk p st r H) by congruence. simpl.
      split; [intros _; discriminate | intros _; eexists; reflexivity].
  - destruct (form_errors p) eqn:Hv.
    + rewrite (TodoUpdateView_found now pk p st r H Hv). simpl.
      intros err E. discriminate.
    + rewrite (TodoUpdateView_invalid now pk p st r H) by congruence. simpl.
      intros err E. injection E as <-. now rewrite Hv.
Qed.

Lemma update_validation_witness :
  exec (TodoUpdateView 9 1 (mkPost "" "No title" DueBlank true)) store_two
    = store_two.
Proof.
  destruct (update_validation 9 1 (mkPost "" "No title" DueBlank true) store_two
              (mkRow "Buy groceries" "Milk, eggs, bread" false None 5 5)
              eq_refl) as (_ & _ & Hfail).
  exact (proj2 (Hfail _ eq_refl)).
Defined.

(** X3: a successful update writes one row only: every other row, the set
    of keys in use, the number of rows and the id counter are as before. *)
Theorem update_frame now pk p st r :
  rows st !! pk = Some r ->
  form_errors p = [] ->
  let st' := exec (TodoUpdateView now pk p) st in
  (forall k, k <> pk -> rows st' !! k = rows st !! k) /\
  dom (rows st') = dom (rows st) /\
  size (rows st') = size (rows st) /\
  next_id st' = next_id st.
Proof.
  intros H Hv st'. subst st'. unfold exec.
  rewrite (TodoUpdateView_found now pk p st r H Hv). simpl.
  split; [intros k Hk; now apply lookup_insert_ne |].
  split; [apply dom_insert_lookup_L; eauto |].
  split; [apply map_size_insert_Some; eauto | reflexivity].
Qed.

Lemma update_frame_witness :
  rows (exec (TodoUpdateView 9 2 groceries) store_two) !! 1 = rows store_two !! 1 /\
  next_id (exec (TodoUpdateView 9 2 groceries) store_two) = 3.
Proof.
  destruct (update_frame 9 2 groceries store_two
              (mkRow "Complete project" "Finish the Django project" true
                     (Some 90) 7 7) eq_refl eq_refl)
    as (Hothers & _ & _ & Hnext).
  split; [apply Hothers; lia | exact Hnext].
Defined.

(** ** Fresh ids *)

Lemma ids_below_fresh st : ids_below st -> rows st !! next_id st = None.
Proof.
  intros H. destruct (rows st !! next_id st) as [r |] eqn:E; [| reflexivity].
  pose proof (map_Forall_lookup_1 _ _ _ _ H E) as Hlt. simpl in Hlt. lia.
Qed.

Lemma ids_below_empty : ids_below empty_store.
Proof. unfold ids_below. simpl. apply map_Forall_empty. Qed.

(** X4: when every key in use is below the id counter, a successful create
    takes a key that was not in use, leaves every row that was there as it
    was, makes the table one row larger, and keys are again below the
    counter. *)
Theorem create_frame now p st :
  ids_below st ->
  form_errors p = [] ->
  let st' := exec (TodoCreateView now p) st in
  run (TodoDetailView (next_id st)) st = Fail NotFound /\
  (exists e, run (TodoCreateView now p) st = Ok e /\ id e = next_id st /\
             rows st' !! id e = Some (row e)) /\
  (forall k r, rows st !! k = Some r -> rows st' !! k = Some r) /\
  size (rows st') = S (size (rows st)) /\
  next_id st < next_id st' /\
  ids_below st'.
Proof.
  intros Hinv Hv st'. subst st'. unfold run, exec.
  pose proof (ids_below_fresh st Hinv) as Hfresh.
  rewrite (TodoCreateView_valid now p st Hv). simpl.
  split; [unfold TodoDetailView; now rewrite get_object_or_404_missing |].
  split.
  { eexists. split; [reflexivity |]. simpl. split; [reflexivity |].
    apply lookup_insert_eq. }
  split.
  { intros k r Hk. rewrite lookup_insert_ne; [assumption |].
    intros <-. congruence. }
  split; [now apply map_size_insert_None |].
  split; [lia |].
  unfold ids_below in *. simpl. apply map_Forall_insert_2; [lia |].
  eapply map_Forall_impl; [exact Hinv |]. simpl. intros; lia.
Qed.

Lemma create_frame_witness :
  rows (exec (TodoCreateView 7 project) store_one) !! 1 = rows store_one !! 1 /\
  size (rows (exec (TodoCreateView 7 project) store_one)) = 2%nat.
Proof.
  assert (Hinv : ids_below store_one).
  { apply (create_frame 5 groceries empty_store ids_below_empty eq_refl). }
  destruct (create_frame 7 project store_one Hinv eq_refl)
    as (_ & _ & Hkept & Hsize & _).
  split; [| exact Hsize].
  exact (Hkept 1 (mkRow "Buy groceries" "Milk, eggs, bread" false None 5 5)
           eq_refl).
Defined.

(** ** Failures *)

(** X5: get, delete and toggle fail only on an id that is not in the table,
    and then with [NotFound]; toggle in particular never validates what it
    saves.  The list fails only with [NotFound].  No view that fails has
    written to the table. *)
Theorem failures_are_clean now pk page st :
  (forall err, run (TodoDetailView pk) st = Fail err ->
     err = NotFound /\ rows st !! pk = None /\
     exec (TodoDetailView pk) st = st) /\
  (forall err, run (TodoDeleteView pk) st = Fail err ->
     err = NotFound /\ rows st !! pk = None /\
     exec (TodoDeleteView pk) st = st) /\
  (forall err, run (toggle_todo now pk) st = Fail err ->
     err = NotFound /\ rows st !! pk = None /\
     exec (toggle_todo now pk) st = st) /\
  (forall err, run (TodoListView page) st = Fail err ->
     err = NotFound /\ exec (TodoListView page) st = st).
Proof.
  repeat split; revert H; unfold_views;
    try (destruct (rows st !! pk); simpl; congruence).
  all: unfold TodoListView;
    destruct (paginator_page_cases (queryset st)
                match page with
                | PageNumber n => n
                | PageLast => num_pages (length (queryset st))
                end st) as [E | E]; rewrite E; simpl; congruence.
Qed.

Lemma failures_are_clean_witness :
  rows store_two !! 999 = None.
Proof.
  destruct (failures_are_clean 9 999 PageLast store_two) as (_ & _ & Htoggle & _).
  exact (proj1 (proj2 (Htoggle NotFound eq_refl))).
Defined.

(** ** Toggle as an update *)

(** X6: on a row whose text is as the form stores it (title and
    description without whitespace around them and accepted by the form), a
    toggle does to the table what an update does that submits the row's own
    title, description and due date together with the negated
    [completed]. *)
Theorem toggle_as_update now pk st r :
  rows st !! pk = Some r ->
  row_clean r ->
  exec (toggle_todo now pk) st
    = exec (TodoUpdateView now pk (resubmit r (negb (completed r)))) st.
Proof.
  intros H (Hst & Hsd & Ht & Hd). unfold exec.
  rewrite (toggle_todo_found now pk st r H).
  assert (Hv : form_errors (resubmit r (negb (completed r))) = []).
  { unfold form_errors, resubmit. simpl. rewrite Ht, Hd.
    now destruct (due_date r). }
  rewrite (TodoUpdateView_found now pk _ st r H Hv). simpl.
  unfold resubmit. simpl. rewrite Hst, Hsd.
  now destruct (due_date r).
Qed.

Lemma toggle_as_update_witness :
  exec (toggle_todo 9 2) store_two
    = exec (TodoUpdateView 9 2
              (mkPost "Complete project" "Finish the Django project" (DueAt 90)
                      false)) store_two.
Proof.
  apply (toggle_as_update 9 2 store_two
           (mkRow "Complete project" "Finish the Django project" true
                  (Some 90) 7 7)).
  - reflexivity.
  - repeat split.
Defined.

(** ** Pages *)

(** Cutting a list into [n] slices of [k] and gluing them gives the list
    back, when [n] slices are enough. *)
Lemma concat_slices {A} (k n : nat) (l : list A) :
  (length l <= n * k)%nat ->
  concat ((fun i : nat => take k (drop (i * k) l)) <$> seq 0 n) = l.
Proof.
  revert l. induction n as [| n IH]; intros l Hlen.
  - simpl in *. destruct l; [reflexivity | simpl in Hlen; lia].
  - rewrite <- cons_seq, <- fmap_S_seq. rewrite fmap_cons, <- list_fmap_compose.
    simpl concat. simpl drop.
    transitivity ((take k l ++ drop k l)%list); [| apply take_drop].
    f_equal.
    rewrite <- (IH (drop k l)) by (rewrite length_drop; lia).
    f_equal. apply list_fmap_ext. intros _ i _. simpl.
    rewrite drop_drop. reflexivity.
Qed.

Lemma num_pages_enough count :
  (count <= Z.to_nat (num_pages count) * paginate_by)%nat.
Proof.
  unfold num_pages, paginate_by. rewrite Nat2Z.id.
  pose proof (Nat.div_mod_eq (Nat.max 1 count + 10 - 1) 10).
  pose proof (Nat.mod_upper_bound (Nat.max 1 count + 10 - 1) 10).
  lia.
Qed.

(** Before the last page, ten more rows are always left. *)
Lemma num_pages_full count (i : nat) :
  Z.of_nat (S i) < num_pages count -> (S i * paginate_by <= count)%nat.
Proof.
  unfold num_pages, paginate_by. intros H.
  pose proof (Nat.div_mod_eq (Nat.max 1 count + 10 - 1) 10).
  pose proof (Nat.mod_upper_bound (Nat.max 1 count + 10 - 1) 10).
  lia.
Qed.

Lemma num_pages_last count :
  (0 < count)%nat ->
  (Z.to_nat (num_pages count - 1) * paginate_by < count)%nat.
Proof.
  unfold num_pages, paginate_by. intros H.
  pose proof (Nat.div_mod_eq (Nat.max 1 count + 10 - 1) 10).
  pose proof (Nat.mod_upper_bound (Nat.max 1 count + 10 - 1) 10).
  lia.
Qed.

Lemma TodoListView_number n st :
  1 <= n -> n <= num_pages (length (queryset st)) ->
  run (TodoListView (PageNumber n)) st
    = Ok (take paginate_by
            (drop (Z.to_nat (n - 1) * paginate_by) (queryset st))).
Proof.
  intros Hlo Hhi. unfold run, TodoListView.
  now rewrite paginator_page_slice.
Qed.

Lemma queryset_NoDup st : NoDup (queryset st).
Proof.
  unfold queryset. rewrite merge_sort_Permutation.
  apply NoDup_fmap_2_strong; [| apply NoDup_map_to_list].
  intros [k r] [k' r'] _ _ E. simpl in E. now injection E as -> ->.
Qed.

(** X7: paging through the list from the first page to the last shows every
    stored todo exactly once: each of these pages is returned, glued
    together they are the ordered rows, which hold no entity twice, hold as
    many entities as the table has rows, and hold an entity exactly when it
    is stored under its id. *)
Theorem pages_show_every_todo_once st :
  Forall (fun r => exists l, r = Ok l) (all_pages st) /\
  concat (page_items <$> all_pages st) = queryset st /\
  NoDup (queryset st) /\
  length (queryset st) = size (rows st) /\
  (forall e, e ∈ queryset st <-> rows st !! id e = Some (row e)).
Proof.
  assert (Hpage : forall i : nat,
             i ∈ seq 0 (Z.to_nat (num_pages (length (queryset st)))) ->
             run (TodoListView (PageNumber (Z.of_nat (S i)))) st
               = Ok (take paginate_by (drop (i * paginate_by) (queryset st)))).
  { intros i Hi. apply elem_of_seq in Hi.
    rewrite TodoListView_number by lia.
    do 3 f_equal. lia. }
  split; [| split; [| split; [| split]]].
  - unfold all_pages. apply Forall_fmap, Forall_forall.
    intros i Hi. simpl. rewrite (Hpage i Hi). eauto.
  - unfold all_pages. rewrite <- list_fmap_compose.
    rewrite <- (concat_slices paginate_by
                  (Z.to_nat (num_pages (length (queryset st)))) (queryset st))
      at 2 by apply num_pages_enough.
    f_equal. apply list_fmap_ext. intros k i Hk. simpl.
    rewrite Hpage; [reflexivity |].
    eapply list_elem_of_lookup_2; eassumption.
  - apply queryset_NoDup.
  - apply queryset_length.
  - apply queryset_elem_of.
Qed.

(** X8: page [n] of the list is returned exactly for [1 <= n <= num_pages];
    every page before the last holds exactly [paginate_by] = 10 entities;
    the last page is the one the word [last] asks for, and it holds at least
    one entity unless the table is empty. *)
Theorem page_bounds n st :
  let count := length (queryset st) in
  (run (TodoListView (PageNumber n)) st = Fail NotFound <->
   n < 1 \/ num_pages count < n) /\
  (1 <= n < num_pages count ->
   exists l, run (TodoListView (PageNumber n)) st = Ok l /\
             length l = 10%nat) /\
  (n = num_pages count ->
   exists l, run (TodoListView (PageNumber n)) st = Ok l /\
             run (TodoListView PageLast) st = Ok l /\
             (l = [] <-> rows st = ∅)).
Proof.
  intros count. subst count. split; [| split].
  - unfold run, TodoListView, paginator_page.
    destruct (Z.ltb_spec n 1); [simpl; split; auto |].
    destruct (Z.ltb_spec (num_pages (length (queryset st))) n);
      simpl; [split; auto |].
    split; [discriminate | lia].
  - intros [Hlo Hhi]. rewrite TodoListView_number by lia.
    eexists. split; [reflexivity |].
    pose proof (num_pages_full (length (queryset st)) (Z.to_nat (n - 1))) as Hfull.
    rewrite length_take, length_drop. unfold paginate_by in *. lia.
  - intros ->. pose proof (num_pages_pos (length (queryset st))) as Hpos.
    rewrite TodoListView_number by lia.
    eexists. split; [reflexivity |]. split.
    + unfold run, TodoListView. now rewrite paginator_page_slice by lia.
    + rewrite <- length_zero_iff_nil, length_take, length_drop.
      rewrite <- map_size_empty_iff, <- queryset_length.
      destruct (length (queryset st)) as [| c] eqn:Hc.
      * split; [reflexivity | intros _; lia].
      * pose proof (num_pages_last (S c) ltac:(lia)).
        unfold paginate_by in *. split; lia.
Qed.

Lemma page_bounds_witness :
  exists l, run (TodoListView (PageNumber 1)) store_two = Ok l /\
            run (TodoListView PageLast) store_two = Ok l /\
            (l = [] <-> rows store_two = ∅).
Proof.
  apply (proj2 (proj2 (page_bounds 1 store_two))).
  reflexivity.
Defined.

(** ** The list after a write *)

(** X9: when every key in use is below the id counter, the ordered rows
    after a successful create are the ones before together with the new
    entity, which was not among them. *)
Theorem list_after_create now p st :
  ids_below st ->
  form_errors p = [] ->
  let new := mkTodo (next_id st)
               (mkRow (strip (post_title p)) (strip (post_description p))
                      (post_completed p) (to_due_date (post_due_date p))
                      now now) in
  run (TodoCreateView now p) st = Ok new /\
  (forall e, e ∈ queryset (exec (TodoCreateView now p) st) <->
             e = new \/ e ∈ queryset st) /\
  (forall e, e ∈ queryset st -> id e <> id new) /\
  length (queryset (exec (TodoCreateView now p) st)) = S (length (queryset st)).
Proof.
  intros Hinv Hv new. subst new. unfold run, exec.
  pose proof (ids_below_fresh st Hinv) as Hfresh.
  rewrite (TodoCreateView_valid now p st Hv). simpl.
  split; [reflexivity |]. split; [| split].
  - intros [k r]. rewrite !queryset_elem_of. simpl.
    destruct (decide (k = next_id st)) as [-> | Hk].
    + rewrite lookup_insert_eq, Hfresh. split.
      * intros E. injection E as <-. now left.
      * intros [E | E]; [now injection E as <- | discriminate].
    + rewrite lookup_insert_ne by congruence. split; [now right |].
      intros [E | E]; [| assumption]. injection E as -> _. now elim Hk.
  - intros e He. apply queryset_elem_of in He. simpl. intros E.
    rewrite E in He. congruence.
  - rewrite !queryset_length. simpl. now apply map_size_insert_None.
Qed.

Lemma list_after_create_witness :
  length (queryset (exec (TodoCreateView 7 project) store_one)) = 2%nat.
Proof.
  assert (Hinv : ids_below store_one).
  { unfold store_one, exec. rewrite TodoCreateView_valid by reflexivity.
    unfold ids_below. simpl. apply map_Forall_insert_2; [lia |].
    apply map_Forall_empty. }
  exact (proj2 (proj2 (proj2 (list_after_create 7 project store_one Hinv
                                 eq_refl)))).
Defined.

(** X10: after deleting an existing id, the ordered rows are the ones
    before without the entity of that id; after toggling it, they are the
    ones before with that entity's row replaced by the toggled row. *)
Theorem list_after_delete_or_toggle now pk st r :
  rows st !! pk = Some r ->
  (forall e, e ∈ queryset (exec (TodoDeleteView pk) st) <->
             e ∈ queryset st /\ id e <> pk) /\
  (forall e, e ∈ queryset (exec (toggle_todo now pk) st) <->
             (e ∈ queryset st /\ id e <> pk) \/
             e = mkTodo pk (mkRow (title r) (description r)
                              (negb (completed r)) (due_date r)
                              (created_at r) now)) /\
  length (queryset (exec (toggle_todo now pk) st)) = length (queryset st) /\
  S (length (queryset (exec (TodoDeleteView pk) st))) = length (queryset st).
Proof.
  intros H. unfold exec.
  rewrite (TodoDeleteView_found pk st r H), (toggle_todo_found now pk st r H).
  simpl. split; [| split; [| split]].
  - intros [k r']. rewrite !queryset_elem_of. simpl.
    destruct (decide (k = pk)) as [-> | Hk].
    + rewrite lookup_delete_eq. split; [discriminate | intros [_ E]; now elim E].
    + rewrite lookup_delete_ne by congruence. split; [auto | now intros [? _]].
  - intros [k r']. rewrite !queryset_elem_of. simpl.
    destruct (decide (k = pk)) as [-> | Hk].
    + rewrite lookup_insert_eq. split.
      * intros E. injection E as <-. now right.
      * intros [[_ E] | E]; [now elim E | now injection E as <-].
    + rewrite lookup_insert_ne by congruence. split; [auto |].
      intros [[? _] | E]; [assumption |]. injection E as -> _. now elim Hk.
  - rewrite !queryset_length. simpl. apply map_size_insert_Some. eauto.
  - rewrite !queryset_length. simpl.
    assert (size (rows st) <> 0%nat).
    { intros E. apply map_size_empty_iff in E. rewrite E in H.
      now rewrite lookup_empty in H. }
    rewrite map_size_delete, H. lia.
Qed.

Lemma list_after_delete_or_toggle_witness :
  S (length (queryset (exec (TodoDeleteView 1) store_two)))
    = length (queryset store_two).
Proof.
  exact (proj2 (proj2 (proj2
           (list_after_delete_or_toggle 9 1 store_two
              (mkRow "Buy groceries" "Milk, eggs, bread" false None 5 5)
              eq_refl)))).
Defined.

(** ** Requests *)

Lemma title_stored_strip t : clean_title t = [] -> title_stored (strip t).
Proof.
  intros H. split; [apply strip_idem |].
  unfold clean_title in *. now rewrite strip_idem.
Qed.

(** What a request can do to the table: nothing, add a row with a title as
    the form stores it under the next id, overwrite a row that is there
    (with such a title or with the title it had), or delete a row; and
    whenever it does anything else than nothing, the answer is the redirect
    to the list. *)
Lemma handle_cases r st :
  snd (handle r st) = st \/
  (fst (handle r st) = redirect success_url /\
   ((exists row', title_stored (title row') /\
      snd (handle r st) = {| rows := <[next_id st := row']> (rows st);
                             next_id := next_id st + 1 |}) \/
    (exists pk row0 row', rows st !! pk = Some row0 /\
      (title_stored (title row') \/ title row' = title row0) /\
      snd (handle r st) = {| rows := <[pk := row']> (rows st);
                             next_id := next_id st |}) \/
    (exists pk, snd (handle r st) = {| rows := delete pk (rows st);
                                       next_id := next_id st |}))).
Proof.
  destruct r as [now m [page | pk | p | pk p | pk | pk]]; unfold handle; simpl.
  - left. unfold TodoListView_dispatch. destruct m; [| reflexivity].
    unfold TodoListView.
    destruct (paginator_page_cases (queryset st)
                match page with
                | PageNumber n => n
                | PageLast => num_pages (length (queryset st))
                end st) as [E | E]; now rewrite E.
  - left. unfold TodoDetailView_dispatch, TodoDetailView, get_object_or_404.
    destruct m; [| reflexivity]. now destruct (rows st !! pk).
  - unfold TodoCreateView_dispatch. destruct m; [now left |].
    destruct (form_errors p) eqn:Hv.
    + right. rewrite (TodoCreateView_valid now p st Hv). simpl.
      split; [reflexivity |]. left. eexists. split; [| reflexivity].
      simpl. apply title_stored_strip.
      unfold form_errors in Hv. now apply app_eq_nil in Hv as [Ht _].
    + left. now rewrite TodoCreateView_invalid by congruence.
  - unfold TodoUpdateView_dispatch.
    destruct (rows st !! pk) as [row0 |] eqn:Hk.
    + destruct m; [left; now rewrite (get_object_or_404_found pk st row0 Hk) |].
      destruct (form_errors p) eqn:Hv.
      * right. rewrite (TodoUpdateView_found now pk p st row0 Hk Hv). simpl.
        split; [reflexivity |]. right; left.
        eexists pk, row0, _. split; [exact Hk |]. split; [| reflexivity].
        left. simpl. apply title_stored_strip.
        unfold form_errors in Hv. now apply app_eq_nil in Hv as [Ht _].
      * left. now rewrite (TodoUpdateView_invalid now pk p st row0 Hk)
          by congruence.
    + left. destruct m.
      * now rewrite get_object_or_404_missing.
      * unfold TodoUpdateView, mbind, M_bind, bind.
        now rewrite get_object_or_404_missing.
  - unfold TodoDeleteView_dispatch.
    destruct (rows st !! pk) as [row0 |] eqn:Hk.
    + destruct m; [left; now rewrite (get_object_or_404_found pk st row0 Hk) |].
      right. rewrite (TodoDeleteView_found pk st row0 Hk). simpl.
      split; [reflexivity |]. right; right. now exists pk.
    + left. destruct m.
      * now rewrite get_object_or_404_missing.
      * unfold TodoDeleteView, mbind, M_bind, bind.
        now rewrite get_object_or_404_missing.
  - unfold toggle_todo_dispatch.
    destruct (rows st !! pk) as [row0 |] eqn:Hk.
    + right. rewrite (toggle_todo_found now pk st row0 Hk). simpl.
      split; [reflexivity |]. right; left.
      eexists pk, row0, _. split; [exact Hk |]. split; [| reflexivity].
      now right.
    + left. unfold toggle_todo, mbind, M_bind, bind.
      now rewrite get_object_or_404_missing.
Qed.

(** X12: a GET request never writes to the table on the list, detail,
    create, edit and delete pages; [toggle_todo] alone does not look at the
    method, so a GET on it toggles the row just as a POST does. *)
Theorem get_is_safe_except_toggle now t st :
  (forall pk, t <> todo_toggle pk) ->
  snd (handle (mkRequest now GET t) st) = st /\
  (status_code (fst (handle (mkRequest now GET t) st)) = 200 \/
   status_code (fst (handle (mkRequest now GET t) st)) = 404) /\
  (forall pk r, rows st !! pk = Some r ->
     handle (mkRequest now GET (todo_toggle pk)) st
       = handle (mkRequest now POST (todo_toggle pk)) st /\
     completed <$>
       rows (snd (handle (mkRequest now GET (todo_toggle pk)) st)) !! pk
       = Some (negb (completed r))).
Proof.
  intros Ht. split; [| split].
  - destruct t as [page | pk | p | pk p | pk | pk]; unfold handle; simpl.
    + unfold TodoListView_dispatch, TodoListView.
      destruct (paginator_page_cases (queryset st)
                  match page with
                  | PageNumber n => n
                  | PageLast => num_pages (length (queryset st))
                  end st) as [E | E]; now rewrite E.
    + unfold TodoDetailView_dispatch, TodoDetailView, get_object_or_404.
      now destruct (rows st !! pk).
    + reflexivity.
    + unfold TodoUpdateView_dispatch, get_object_or_404.
      now destruct (rows st !! pk).
    + unfold TodoDeleteView_dispatch, get_object_or_404.
      now destruct (rows st !! pk).
    + now elim (Ht pk).
  - destruct t as [page | pk | p | pk p | pk | pk]; unfold handle; simpl.
    + unfold TodoListView_dispatch, TodoListView.
      destruct (paginator_page_cases (queryset st)
                  match page with
                  | PageNumber n => n
                  | PageLast => num_pages (length (queryset st))
                  end st) as [E | E]; rewrite E; simpl; auto.
    + unfold TodoDetailView_dispatch, TodoDetailView, get_object_or_404.
      destruct (rows st !! pk); simpl; auto.
    + auto.
    + unfold TodoUpdateView_dispatch, get_object_or_404.
      destruct (rows st !! pk); simpl; auto.
    + unfold TodoDeleteView_dispatch, get_object_or_404.
      destruct (rows st !! pk); simpl; auto.
    + now elim (Ht pk).
  - intros pk r Hk. split; [reflexivity |].
    unfold handle, toggle_todo_dispatch. simpl.
    rewrite (toggle_todo_found now pk st r Hk). simpl.
    now rewrite lookup_insert_eq.
Qed.

Lemma get_is_safe_except_toggle_witness :
  snd (handle (mkRequest 9 GET (todo_delete 1)) store_two) = store_two.
Proof.
  apply (get_is_safe_except_toggle 9 (todo_delete 1) store_two).
  intros pk. discriminate.
Defined.

(** X13: a request whose answer is not the redirect to the list has left
    the table exactly as it was: only a redirect reports a write. *)
Theorem only_a_redirect_writes r st :
  status_code (fst (handle r st)) <> 302 ->
  snd (handle r st) = st.
Proof.
  intros Hs. destruct (handle_cases r st) as [E | [E _]]; [exact E |].
  rewrite E in Hs. now elim Hs.
Qed.

Lemma only_a_redirect_writes_witness :
  snd (handle (mkRequest 9 POST (todo_create (mkPost "" "No title" DueBlank false)))
         store_two) = store_two.
Proof.
  apply only_a_redirect_writes. vm_compute. discriminate.
Defined.

(** X14: the status of a POST tells what happened.  On the create page it is
    302 exactly for a valid form and 200 otherwise, the form shown again
    bound to what was submitted, with its errors.  On the edit page it is
    404 exactly for a missing id, else 302 exactly for a valid form and 200
    otherwise.  On the delete and toggle pages it is 302 for an id in the
    table and 404 for a missing one. *)
Theorem post_status now pk p st :
  let answer t := fst (handle (mkRequest now POST t) st) in
  (status_code (answer (todo_create p)) = 302 <-> form_errors p = []) /\
  (form_errors p <> [] ->
   answer (todo_create p)
     = render "todos/todo_form.html" (ctx_form (bound p (form_errors p)))) /\
  (status_code (answer (todo_edit pk p)) = 404 <-> rows st !! pk = None) /\
  (status_code (answer (todo_edit pk p)) = 302 <->
   is_Some (rows st !! pk) /\ form_errors p = []) /\
  (is_Some (rows st !! pk) -> form_errors p <> [] ->
   answer (todo_edit pk p)
     = render "todos/todo_form.html" (ctx_form (bound p (form_errors p)))) /\
  (status_code (answer (todo_delete pk)) = 302 <-> is_Some (rows st !! pk)) /\
  (status_code (answer (todo_delete pk)) = 404 <-> rows st !! pk = None) /\
  (status_code (answer (todo_toggle pk)) = 302 <-> is_Some (rows st !! pk)) /\
  (status_code (answer (todo_toggle pk)) = 404 <-> rows st !! pk = None).
Proof.
  intros answer. subst answer. unfold handle. simpl.
  unfold TodoCreateView_dispatch, TodoUpdateView_dispatch,
    TodoDeleteView_dispatch, toggle_todo_dispatch.
  destruct (form_errors p) eqn:Hv.
  - rewrite (TodoCreateView_valid now p st Hv).
    destruct (rows st !! pk) as [row0 |] eqn:Hk.
    + rewrite (TodoUpdateView_found now pk p st row0 Hk Hv),
        (TodoDeleteView_found pk st row0 Hk),
        (toggle_todo_found now pk st row0 Hk). simpl.
      repeat split; try discriminate; try congruence; eauto.
    + unfold TodoUpdateView, TodoDeleteView, toggle_todo, mbind, M_bind, bind.
      rewrite !get_object_or_404_missing by assumption. simpl.
      repeat split; try discriminate; try congruence;
        try (intros [? ?]; discriminate); try (intros [[? ?] ?]; discriminate).
  - assert (Hbad : form_errors p <> []) by congruence.
    rewrite (TodoCreateView_invalid now p st Hbad).
    destruct (rows st !! pk) as [row0 |] eqn:Hk.
    + rewrite (TodoUpdateView_invalid now pk p st row0 Hk Hbad),
        (TodoDeleteView_found pk st row0 Hk),
        (toggle_todo_found now pk st row0 Hk). simpl. rewrite Hv.
      repeat split; try discriminate; try congruence; eauto;
        try (intros [? ?]; discriminate).
    + unfold TodoUpdateView, TodoDeleteView, toggle_todo, mbind, M_bind, bind.
      rewrite !get_object_or_404_missing by assumption. simpl. rewrite Hv.
      repeat split; try discriminate; try congruence;
        try (intros [? ?]; discriminate); try (intros [[? ?] ?]; discriminate).
Qed.

Lemma post_status_witness :
  fst (handle (mkRequest 9 POST
                 (todo_edit 1 (mkPost "" "No title" DueMalformed false)))
         store_two)
    = render "todos/todo_form.html"
        (ctx_form (bound (mkPost "" "No title" DueMalformed false)
                     [(f_title, required); (f_due_date, invalid)])).
Proof.
  apply (proj1 (proj2 (proj2 (proj2 (proj2
           (post_status 9 1 (mkPost "" "No title" DueMalformed false)
              store_two)))))).
  - eexists. reflexivity.
  - discriminate.
Defined.

(** ** Runs of requests *)

Lemma handle_ids_below r st : ids_below st -> ids_below (snd (handle r st)).
Proof.
  intros Hinv.
  destruct (handle_cases r st)
    as [-> | [_ [(row' & _ & ->) | [(pk & row0 & row' & Hk & _ & ->) | (pk & ->)]]]];
    unfold ids_below in *; simpl.
  - exact Hinv.
  - apply map_Forall_insert_2; [lia |].
    eapply map_Forall_impl; [exact Hinv |]. simpl. intros; lia.
  - apply map_Forall_insert_2; [| exact Hinv].
    exact (map_Forall_lookup_1 _ _ _ _ Hinv Hk).
  - now apply map_Forall_delete.
Qed.

Lemma handle_titles_stored r st :
  map_Forall (fun _ row0 => title_stored (title row0)) (rows st) ->
  map_Forall (fun _ row0 => title_stored (title row0)) (rows (snd (handle r st))).
Proof.
  intros Hinv.
  destruct (handle_cases r st)
    as [-> | [_ [(row' & Ht & ->) | [(pk & row0 & row' & Hk & Ht & ->) | (pk & ->)]]]];
    simpl.
  - exact Hinv.
  - now apply map_Forall_insert_2.
  - apply map_Forall_insert_2; [| exact Hinv].
    destruct Ht as [Ht | Ht]; [exact Ht |].
    rewrite Ht. exact (map_Forall_lookup_1 _ _ _ _ Hinv Hk).
  - now apply map_Forall_delete.
Qed.

Lemma serve_titles_stored rs st :
  map_Forall (fun _ row0 => title_stored (title row0)) (rows st) ->
  map_Forall (fun _ row0 => title_stored (title row0)) (rows (serve rs st)).
Proof.
  revert st. induction rs as [| r rs IH]; intros st H; simpl; [exact H |].
  apply IH. now apply handle_titles_stored.
Qed.

Lemma handle_next_id r st : next_id st <= next_id (snd (handle r st)).
Proof.
  destruct (handle_cases r st)
    as [-> | [_ [(row' & _ & ->) | [(pk & row0 & row' & _ & _ & ->) | (pk & ->)]]]];
    simpl; lia.
Qed.

Lemma serve_next_id rs st : next_id st <= next_id (serve rs st).
Proof.
  revert st. induction rs as [| r rs IH]; intros st; simpl; [lia |].
  pose proof (handle_next_id r st). pose proof (IH (snd (handle r st))). lia.
Qed.

Lemma serve_ids_below rs st : ids_below st -> ids_below (serve rs st).
Proof.
  revert st. induction rs as [| r rs IH]; intros st H; simpl; [exact H |].
  apply IH. now apply handle_ids_below.
Qed.

(** X15: whatever requests are served, in whatever order, starting from the
    empty table, every stored title is non-empty and at most 200 characters
    long, and every key in use is below the id counter. *)
Theorem served_table_is_sound rs :
  let st := serve rs empty_store in
  (forall pk r, rows st !! pk = Some r ->
     title r <> "" /\ (String.length (title r) <= title_max_length)%nat /\
     pk < next_id st) /\
  titles_valid st /\ ids_below st.
Proof.
  intros st. subst st.
  assert (Ht : map_Forall (fun _ row0 => title_stored (title row0))
                 (rows (serve rs empty_store))).
  { apply serve_titles_stored. simpl. apply map_Forall_empty. }
  pose proof (serve_ids_below rs empty_store ids_below_empty) as Hi.
  split; [| split; [| assumption]].
  - intros pk r Hk.
    pose proof (map_Forall_lookup_1 _ _ _ _ Ht Hk) as [Hs H1]. simpl in Hs, H1.
    pose proof (map_Forall_lookup_1 _ _ _ _ Hi Hk) as H2. simpl in H2.
    apply clean_title_ok in H1 as (? & ? & ?). rewrite Hs in *. auto.
  - unfold titles_valid. eapply map_Forall_impl; [exact Ht |].
    simpl. now intros _ row0 [_ ?].
Qed.

(** X16: an id is not handed out twice.  When every key in use is below the
    id counter, an id that is in the table now differs from the id of every
    entity created later, whatever requests are served in between, even
    ones that delete it. *)
Theorem id_is_not_reused rs now p st pk r e :
  ids_below st ->
  rows st !! pk = Some r ->
  run (TodoCreateView now p) (serve rs st) = Ok e ->
  pk < id e.
Proof.
  intros Hinv Hk He.
  pose proof (map_Forall_lookup_1 _ _ _ _ Hinv Hk) as Hlt. simpl in Hlt.
  pose proof (serve_next_id rs st) as Hmono.
  unfold run in He. destruct (form_errors p) eqn:Hv.
  - rewrite TodoCreateView_valid in He by assumption. simpl in He.
    injection He as <-. simpl. lia.
  - rewrite TodoCreateView_invalid in He by congruence. discriminate.
Qed.

Lemma id_is_not_reused_witness :
  1 < id (mkTodo 3 (mkRow "Buy groceries" "Milk, eggs, bread" false None 11 11)).
Proof.
  apply (id_is_not_reused [mkRequest 9 POST (todo_delete 1)] 11 groceries
           store_two 1
           (mkRow "Buy groceries" "Milk, eggs, bread" false None 5 5)).
  - apply (serve_ids_below
             [mkRequest 5 POST (todo_create groceries);
              mkRequest 7 POST (todo_create project)] empty_store).
    apply ids_below_empty.
  - reflexivity.
  - reflexivity.
Defined.

Lemma pages_show_every_todo_once_witness :
  concat (page_items <$> all_pages store_two) = queryset store_two.
Proof.
  exact (proj1 (proj2 (pages_show_every_todo_once store_two))).
Defined.

Lemma served_table_is_sound_witness :
  ids_below
    (serve [mkRequest 5 POST (todo_create groceries);
            mkRequest 6 GET (todo_toggle 1);
            mkRequest 7 POST (todo_edit 1 project);
            mkRequest 8 POST (todo_delete 1)] empty_store).
Proof.
  exact (proj2 (proj2 (served_table_is_sound
                         [mkRequest 5 POST (todo_create groceries);
                          mkRequest 6 GET (todo_toggle 1);
                          mkRequest 7 POST (todo_edit 1 project);
                          mkRequest 8 POST (todo_delete 1)]))).
Defined.

(** ** Two toggles at once *)

(** The two calls of a toggle request, made back to back, are [toggle_todo]. *)
Lemma toggle_steps_are_toggle_todo now1 now2 pk st :
  let '(t1, st1) := toggle_step now1 (toggle_start pk) st in
  let '(t2, st2) := toggle_step now2 t1 st1 in
  t2 = toggle_done (run (toggle_todo now2 pk) st) /\
  st2 = exec (toggle_todo now2 pk) st.
Proof.
  unfold toggle_step, run, exec, toggle_todo, mbind, mret, M_bind, M_ret,
    bind, ret, get_object_or_404, save.
  destruct (rows st !! pk); simpl; auto.
Qed.

Lemma toggle_step_read now pk st r :
  rows st !! pk = Some r ->
  toggle_step now (toggle_start pk) st = (toggle_loaded (mkTodo pk r), st).
Proof. intros H. unfold toggle_step, get_object_or_404. now rewrite H. Qed.

Lemma toggle_step_write now pk r st :
  toggle_step now (toggle_loaded (mkTodo pk r)) st =
    (toggle_done (Ok tt),
     {| rows := <[pk := mkRow (title r) (description r) (negb (completed r))
                          (due_date r) (created_at r) now]> (rows st);
        next_id := next_id st |}).
Proof. reflexivity. Qed.

Ltac race_run H :=
  repeat (cbn [interleave race_step req1 req2 table];
          first [ rewrite toggle_step_write
                | erewrite toggle_step_read
                    by (cbn [rows]; first [exact H | apply lookup_insert_eq]) ]);
  cbn [interleave race_step req1 req2 table rows].

(** C9 (as the code has it): [toggle_todo] reads the row and writes it back
    in two separate calls, with nothing to make the pair atomic.  When two
    toggle requests on an existing id each make their two calls, in any
    order, both succeed and only the row of that id is written; if one
    request makes both its calls before the other makes any, [completed]
    ends as it started (both toggles count); in every other order, where
    each has read before the other has written, [completed] ends negated:
    one toggle is lost. *)
Theorem toggles_interleaved now1 now2 pk st r sched :
  rows st !! pk = Some r ->
  turns_of first sched = 2%nat ->
  turns_of second sched = 2%nat ->
  let c := interleave now1 now2 sched
             (mkRace (toggle_start pk) (toggle_start pk) st) in
  req1 c = toggle_done (Ok tt) /\
  req2 c = toggle_done (Ok tt) /\
  completed <$> rows (table c) !! pk
    = Some (if serial sched then completed r else negb (completed r)) /\
  (forall k, k <> pk -> rows (table c) !! k = rows st !! k).
Proof.
  intros H H1 H2.
  destruct sched as [| a [| b [| c0 [| d [| e rest]]]]].
  - discriminate.
  - destruct a; discriminate.
  - destruct a, b; discriminate.
  - destruct a, b, c0; discriminate.
  - destruct a, b, c0, d; simpl in H1, H2; try discriminate;
      cbv zeta; race_run H;
      (split; [reflexivity |]); (split; [reflexivity |]);
      (split; [rewrite lookup_insert_eq; simpl; now rewrite ?negb_involutive |]);
      intros k Hk; now rewrite !lookup_insert_ne by congruence.
  - destruct a, b, c0, d, e; simpl in H1, H2; lia.
Qed.

Lemma toggles_interleaved_witness :
  completed <$>
    rows (table (interleave 9 10 [first; second; first; second]
                   (mkRace (toggle_start 1) (toggle_start 1) store_two))) !! 1
    = Some true /\
  completed <$>
    rows (table (interleave 9 10 [first; first; second; second]
                   (mkRace (toggle_start 1) (toggle_start 1) store_two))) !! 1
    = Some false.
Proof.
  split.
  - exact (proj1 (proj2 (proj2
             (toggles_interleaved 9 10 1 store_two
                (mkRow "Buy groceries" "Milk, eggs, bread" false None 5 5)
                [first; second; first; second] eq_refl eq_refl eq_refl)))).
  - exact (proj1 (proj2 (proj2
             (toggles_interleaved 9 10 1 store_two
                (mkRow "Buy groceries" "Milk, eggs, bread" false None 5 5)
                [first; first; second; second] eq_refl eq_refl eq_refl)))).
Defined.

(** C9, the claim as written fails: two toggle requests on the pending todo
    1 whose reads both come before their writes both succeed and leave it
    completed, where either request after the other leaves it pending; so
    some interleaving of the calls ends in a table that no order of the two
    toggles gives, and a toggle is lost. *)
Lemma lost_update :
  let c := interleave 9 10 [first; second; first; second]
             (mkRace (toggle_start 1) (toggle_start 1) store_one) in
  completed <$> rows store_one !! 1 = Some false /\
  req1 c = toggle_done (Ok tt) /\
  req2 c = toggle_done (Ok tt) /\
  completed <$> rows (table c) !! 1 = Some true /\
  completed <$>
    rows (exec (toggle_todo 10 1) (exec (toggle_todo 9 1) store_one)) !! 1
    = Some false /\
  completed <$>
    rows (exec (toggle_todo 9 1) (exec (toggle_todo 10 1) store_one)) !! 1
    = Some false /\
  ~ (forall now1 now2 pk st sched,
       turns_of first sched = 2%nat -> turns_of second sched = 2%nat ->
       completed <$>
         rows (table (interleave now1 now2 sched
                        (mkRace (toggle_start pk) (toggle_start pk) st))) !! pk
       = completed <$>
           rows (exec (toggle_todo now2 pk) (exec (toggle_todo now1 pk) st)) !! pk).
Proof.
  cbv zeta. repeat split; try reflexivity.
  intros H.
  specialize (H 9 10 1 store_one [first; second; first; second] eq_refl eq_refl).
  vm_compute in H. discriminate H.
Qed.
